(** * parsex.py: media catalog builder — a shallow embedding and its properties

    The development follows [src/parsex.py] function by function: the
    filename parser and its pattern, the pretty-printers, the extraction of
    the probe's JSON document, the unit of work of one file, the catalog
    reader and writer, discovery and [main].  Then come the statements of
    the specification and their proofs.

    Python [str] values are modelled by [string] (8-bit characters: the
    digit class of the pattern and [str.upper] are the ASCII ones), [int] by
    [Z], [float] by the rational a double denotes, a call that may raise by
    an [option] whose [None] is the exception, and the dictionary of catalog
    rows by a [gmap] keyed by name.  The thread pool is modelled by the
    order in which its units complete, which a run leaves open. *)

From Stdlib Require Import ZArith QArith Qabs Qround Ascii String DecimalString List Lia
  Bool.
From stdpp Require Import base option list gmap strings.

Local Open Scope string_scope.
Local Open Scope Z_scope.

(** ** String primitives of the host language *)

Module Str.

Definition dot : ascii := "."%char.
Definition space : ascii := " "%char.
Definition newline : ascii := "010"%char.

Definition is_digit (c : ascii) : bool :=
  let n := nat_of_ascii c in (48 <=? n)%nat && (n <=? 57)%nat.

(** [c in s] for a one-character needle. *)
Fixpoint contains (c : ascii) (s : string) : bool :=
  match s with
  | EmptyString => false
  | String a r => Ascii.eqb a c || contains c r
  end.

(** [s.split(sep)]: never empty, the empty string splits to one empty
    token. *)
Fixpoint split (sep : ascii) (s : string) : list string :=
  match s with
  | EmptyString => [EmptyString]
  | String a r =>
      if Ascii.eqb a sep then EmptyString :: split sep r
      else match split sep r with
           | [] => [String a EmptyString]
           | w :: ws => String a w :: ws
           end
  end.

(** [sep.join(l)]. *)
Fixpoint join (sep : string) (l : list string) : string :=
  match l with
  | [] => EmptyString
  | [w] => w
  | w :: ws => w ++ sep ++ join sep ws
  end.

(** [s.replace(a, b)] for one-character [a] and [b]. *)
Fixpoint replace (a b : ascii) (s : string) : string :=
  match s with
  | EmptyString => EmptyString
  | String c r => String (if Ascii.eqb c a then b else c) (replace a b r)
  end.

Definition upper_char (c : ascii) : ascii :=
  let n := nat_of_ascii c in
  if (97 <=? n)%nat && (n <=? 122)%nat then ascii_of_nat (n - 32) else c.

Fixpoint upper (s : string) : string :=
  match s with
  | EmptyString => EmptyString
  | String c r => String (upper_char c) (upper r)
  end.

(** [needle in s] for strings. *)
Fixpoint is_substring (needle s : string) : bool :=
  String.prefix needle s ||
  match s with
  | EmptyString => false
  | String _ r => is_substring needle r
  end.

(** [x in l] and [l.index(x)]; the latter raises [ValueError] ([None])
    when [x] is absent. *)
Definition mem (x : string) (l : list string) : bool :=
  existsb (String.eqb x) l.

Fixpoint index (x : string) (l : list string) : option nat :=
  match l with
  | [] => None
  | y :: r => if String.eqb y x then Some 0%nat else S <$> index x r
  end.

End Str.

(** ** The filename pattern

    [re.search] with the pattern of line 155: start anchor, a lazy non-empty
    group 1, a dot, a date that is either two digits, dot, two digits, dot,
    two digits, or four digits, a dot, a greedy group 2 and the end anchor.
    The pattern is anchored at the start, so the search is one backtracking
    match: the lazy group grows one character at a time, the wildcard
    matches any character but a newline, and the end anchor matches at the
    end of the string or just before a newline that ends it. *)

Module Pattern.
Import Str.

(** Group 2 and the end anchor: the group takes the characters up to the
    end, or up to a final newline. *)
Fixpoint rest_group (s : string) : option string :=
  match s with
  | EmptyString => Some EmptyString
  | String c r =>
      if Ascii.eqb c newline
      then match r with EmptyString => Some EmptyString | _ => None end
      else String c <$> rest_group r
  end.

(** First alternative of the date, returning what follows. *)
Definition date6 (s : string) : option string :=
  match s with
  | String a (String b (String p (String c (String d (String q
      (String e (String f r))))))) =>
      if is_digit a && is_digit b && Ascii.eqb p dot
         && is_digit c && is_digit d && Ascii.eqb q dot
         && is_digit e && is_digit f
      then Some r else None
  | _ => None
  end.

(** Second alternative of the date, returning what follows. *)
Definition date4 (s : string) : option string :=
  match s with
  | String a (String b (String c (String d r))) =>
      if is_digit a && is_digit b && is_digit c && is_digit d
      then Some r else None
  | _ => None
  end.

(** The dot after the date, group 2 and the end anchor. *)
Definition dot_rest (s : string) : option string :=
  match s with
  | String p r => if Ascii.eqb p dot then rest_group r else None
  | EmptyString => None
  end.

(** Everything after group 1.  The second alternative of the date is
    tried when the first one, or what follows it, fails. *)
Definition after_group1 (s : string) : option string :=
  match s with
  | String p r =>
      if Ascii.eqb p dot then
        match date6 r ≫= dot_rest with
        | Some g2 => Some g2
        | None => date4 r ≫= dot_rest
        end
      else None
  | EmptyString => None
  end.

(** The lazy group has taken at least one character; [s] is what is left.
    Try to finish here, else take one more character. *)
Fixpoint lazy_group (s : string) : option (string * string) :=
  match after_group1 s with
  | Some g2 => Some (EmptyString, g2)
  | None =>
      match s with
      | EmptyString => None
      | String c r =>
          if Ascii.eqb c newline then None
          else (λ m, (String c m.1, m.2)) <$> lazy_group r
      end
  end.

(** The groups (1, 2) of the match, [None] when there is no match. *)
Definition search (filename : string) : option (string * string) :=
  match filename with
  | EmptyString => None
  | String c r =>
      if Ascii.eqb c newline then None
      else (λ m, (String c m.1, m.2)) <$> lazy_group r
  end.

End Pattern.

(** ** [parse_filename_metadata] *)

(** The cast built from the tokens after the date (lines 185-201). *)
Definition cast_of_matches (matches : list string) : option string :=
  if (length matches <=? 3)%nat then
    Some (Str.join " " matches)
  else if negb (Str.mem "And" matches) then
    Some (Str.join " " (take 2 matches))
  else
    and_idx ← Str.index "And" matches;
    if (and_idx <? 3)%nat then
      let name_before := Str.join " " (take and_idx matches) in
      let after_and_parts := drop (and_idx + 1) matches in
      let name_after :=
        if (length after_and_parts <=? 2)%nat
        then Str.join " " after_and_parts
        else Str.join " " (take 2 after_and_parts) in
      Some (name_before ++ ", " ++ name_after)
    else
      Some (Str.join " " (take 2 matches)).

(** [matches] after the cut at the first token that upper-cases to XXX. *)
Definition truncate_xxx (matches : list string) : option (list string) :=
  let upper_matches := map Str.upper matches in
  if Str.mem "XXX" upper_matches then
    i ← Str.index "XXX" upper_matches; Some (take i matches)
  else Some matches.

Definition parse_filename_metadata (filename : string) : option (string * string) :=
  let match_ := Pattern.search filename in
  collection ← (if Str.contains Str.dot filename
                then Str.split Str.dot filename !! 0%nat
                else Some "Unknown");
  let cast := "Unknown" in
  match match_ with
  | Some (group1, group2) =>
      let collection := Str.replace Str.dot Str.space group1 in
      let content_after_date := group2 in
      matches ← truncate_xxx (Str.split Str.dot content_after_date);
      cast ← cast_of_matches matches;
      Some (collection, cast)
  | None => Some (collection, cast)
  end.


(** ** Numbers and their formatting

    A Python [float] is modelled by the rational it denotes exactly (every
    finite double is a rational), or by an infinity or a NaN.  Formatting
    with a fixed number of decimals is then an exact function: the decimal
    nearest to the value, ties to even. *)

Inductive pyfloat :=
| FFinite (q : Q)
| FInf (negative : bool)
| FNan.

Module Num.

(** [str(z)] for an [int]. *)
Definition str_of_int (z : Z) : string :=
  DecimalString.NilZero.string_of_int (Z.to_int z).

(** [s] left-padded with zeros to [width] characters. *)
Fixpoint zero_pad (width : nat) (s : string) : string :=
  match width with
  | O => s
  | S w => if (String.length s <=? w)%nat then zero_pad w ("0" ++ s) else s
  end.

(** [f"{z:02}"]: at least two characters, zeros after the sign. *)
Definition fmt_02 (z : Z) : string :=
  if (0 <=? z) && (z <? 10) then "0" ++ str_of_int z else str_of_int z.

(** The integer nearest to [q], ties to even, for [0 <= q]. *)
Definition round_half_even (q : Q) : Z :=
  let n := Qnum q in
  let d := Z.pos (Qden q) in
  let fl := n / d in
  let r2 := 2 * (n mod d) in
  if r2 <? d then fl
  else if d <? r2 then fl + 1
  else if Z.even fl then fl else fl + 1.

(** [f"{x:.<decimals>f}"] for a finite [x]. *)
Definition fmt_fixed (decimals : nat) (q : Q) : string :=
  let scale := 10 ^ Z.of_nat decimals in
  let negative := Qnum q <? 0 in
  let n := round_half_even (Qabs q * inject_Z scale) in
  let int_part := str_of_int (n / scale) in
  let frac_part := zero_pad decimals (str_of_int (n mod scale)) in
  (if negative then "-" else EmptyString)
  ++ int_part
  ++ match decimals with O => EmptyString | _ => "." ++ frac_part end.

Definition fmt_float (decimals : nat) (x : pyfloat) : string :=
  match x with
  | FFinite q => fmt_fixed decimals q
  | FInf false => "inf"
  | FInf true => "-inf"
  | FNan => "nan"
  end.

(** [int(x)] for a float: truncation; an infinity or a NaN raises. *)
Definition int_of_float (x : pyfloat) : option Z :=
  match x with
  | FFinite q => Some (Z.quot (Qnum q) (Z.pos (Qden q)))
  | _ => None
  end.

(** [bool(x)] for a float. *)
Definition float_truthy (x : pyfloat) : bool :=
  match x with
  | FFinite q => negb (Qnum q =? 0)
  | _ => true
  end.

End Num.

(** ** Pretty-printers: [format_duration], [format_size], [get_res_label] *)

Definition format_duration (seconds : pyfloat) : option string :=
  if negb (Num.float_truthy seconds) then Some "00:00:00"
  else
    total ← Num.int_of_float seconds;
    let '(m, s) := (total / 60, total mod 60) in
    let '(h, m) := (m / 60, m mod 60) in
    Some (Num.fmt_02 h ++ ":" ++ Num.fmt_02 m ++ ":" ++ Num.fmt_02 s).

Definition size_units : list string := ["B"; "KB"; "MB"; "GB"].

(** The loop of [format_size] over the units that are left.  [size_bytes]
    is the integer size at first and its quotients by 1024 afterwards; a
    division by 1024 is exact on doubles as long as the size is below 2^53,
    and above that the rounded quotients compare with 1024 as the exact ones
    do.  Falling off the loop returns [None]. *)
Fixpoint format_size_loop (units : list string) (size_bytes : Q) : option string :=
  match units with
  | [] => None
  | unit :: units' =>
      if Qlt_le_dec size_bytes 1024
      then Some (Num.fmt_fixed 1 size_bytes ++ " " ++ unit)
      else format_size_loop units' (size_bytes / 1024)
  end.

Definition format_size (size_bytes : Z) : option string :=
  format_size_loop size_units (inject_Z size_bytes).

Definition get_res_label (width height : Z) : string :=
  let short_side := Z.min width height in
  if 2160 <=? short_side then "2160p"
  else if 1080 <=? short_side then "1080p"
  else if 720 <=? short_side then "720p"
  else if 540 <=? short_side then "540p"
  else if 480 <=? short_side then "480p"
  else Num.str_of_int short_side ++ "p".


(** ** The document returned by [json.loads]

    A dict is the list of its items; a key is looked up at its first
    occurrence. *)

Unset Elimination Schemes.
Inductive json :=
| JNull
| JBool (b : bool)
| JInt (z : Z)
| JFloat (x : pyfloat)
| JStr (s : string)
| JList (items : list json)
| JDict (items : list (string * json)).
Set Elimination Schemes.

Module Json.

Fixpoint assoc (k : string) (items : list (string * json)) : option json :=
  match items with
  | [] => None
  | (k', v) :: r => if String.eqb k' k then Some v else assoc k r
  end.

(** [v[k]] for a string [k]: [KeyError] or [TypeError] is [None]. *)
Definition subscript (v : json) (k : string) : option json :=
  match v with
  | JDict items => assoc k items
  | _ => None
  end.

(** [v.get(k, default)]: only a dict has the method. *)
Definition get (v : json) (k : string) (dflt : json) : option json :=
  match v with
  | JDict items => Some (default dflt (assoc k items))
  | _ => None
  end.

(** [bool(v)]. *)
Definition truthy (v : json) : bool :=
  match v with
  | JNull => false
  | JBool b => b
  | JInt z => negb (z =? 0)
  | JFloat x => Num.float_truthy x
  | JStr s => negb (String.eqb s EmptyString)
  | JList items => match items with [] => false | _ => true end
  | JDict items => match items with [] => false | _ => true end
  end.

Fixpoint chars (s : string) : list json :=
  match s with
  | EmptyString => []
  | String c r => JStr (String c EmptyString) :: chars r
  end.

(** The items [for s in v] goes through; a value that is not iterable
    raises. *)
Definition iter (v : json) : option (list json) :=
  match v with
  | JList items => Some items
  | JDict items => Some (map (λ kv, JStr kv.1) items)
  | JStr s => Some (chars s)
  | _ => None
  end.

(** [v == s] for a string [s]. *)
Definition eq_str (v : json) (s : string) : bool :=
  match v with
  | JStr t => String.eqb t s
  | _ => false
  end.

End Json.

(** ** What the host language does outside the model

    The operations whose result depends on floating-point rounding, on the
    full grammar of numbers, on the local time zone or on arbitrary code are
    taken as an interface; every theorem holds for any implementation of
    it.  [None] is a raised exception. *)

Inductive pyval (object : Type) :=
| VInt (z : Z)
| VFloat (x : pyfloat)
| VObject (o : object).
Arguments VInt {object} z.
Arguments VFloat {object} x.
Arguments VObject {object} o.

Class Runtime := {
  (** any value that is neither an [int] nor a [float] *)
  object : Type;
  (** [float(s)] and [int(s)] for a string *)
  float_of_str : string → option pyfloat;
  int_of_str : string → option Z;
  (** [float(z)] for an integer beyond 2^53 *)
  float_of_big_int : Z → option pyfloat;
  (** [a / b] on integers, [b] not zero: the nearest double *)
  int_true_div : Z → Z → option pyfloat;
  (** [eval(src)] for a source text that is not of the form digits/digits *)
  eval_other : string → option (pyval object);
  (** [f"{o:.<decimals>f}"] for such a value *)
  format_object : nat → object → option string;
  (** [str(v)], as the CSV writer renders a cell *)
  str_of_json : json → string;
  (** [datetime.fromtimestamp(t).strftime('%Y/%m/%d %H:%M')] *)
  format_timestamp : pyfloat → option string;
}.

Section Probe.
Context `{RT : Runtime}.

(** [int(v)] and [float(v)] on a value of the document. *)
Definition py_int (v : json) : option Z :=
  match v with
  | JInt z => Some z
  | JBool b => Some (if b then 1 else 0)
  | JFloat x => Num.int_of_float x
  | JStr s => int_of_str s
  | _ => None
  end.

Definition py_float (v : json) : option pyfloat :=
  match v with
  | JInt z =>
      if Z.abs z <=? 2 ^ 53 then Some (FFinite (inject_Z z))
      else float_of_big_int z
  | JBool b => Some (FFinite (if b then 1 else 0)%Q)
  | JFloat x => Some x
  | JStr s => float_of_str s
  | _ => None
  end.

(** *** [eval] on the frame-rate field *)

Definition all_digits (s : string) : bool :=
  negb (String.eqb s EmptyString) && forallb Str.is_digit (list_ascii_of_string s).

Fixpoint digits_value (acc : Z) (s : string) : Z :=
  match s with
  | EmptyString => acc
  | String c r => digits_value (10 * acc + (Z.of_nat (nat_of_ascii c) - 48)) r
  end.

(** A decimal integer literal: zeros only, or no leading zero; anything
    else is a [SyntaxError]. *)
Definition int_literal (digits : string) : option Z :=
  let v := digits_value 0 digits in
  if v =? 0 then Some 0
  else match digits with
       | String "0" _ => None
       | _ => Some v
       end.

Fixpoint split_slash (s : string) : option (string * string) :=
  match s with
  | EmptyString => None
  | String c r =>
      if Ascii.eqb c "/" then Some (EmptyString, r)
      else (λ ab, (String c ab.1, ab.2)) <$> split_slash r
  end.

(** [Some (num, den)] when the text is digits, a slash, digits. *)
Definition ratio_literal (src : string) : option (string * string) :=
  ab ← split_slash src;
  if all_digits ab.1 && all_digits ab.2 then Some ab else None.

(** [eval(v)]: a division by zero raises [ZeroDivisionError]; a value that
    is not a string raises [TypeError]. *)
Definition py_eval (v : json) : option (pyval object) :=
  match v with
  | JStr src =>
      match ratio_literal src with
      | Some (num, den) =>
          n ← int_literal num;
          d ← int_literal den;
          if d =? 0 then None else VFloat <$> int_true_div n d
      | None => eval_other src
      end
  | _ => None
  end.

(** *** [get_metadata_ffprobe] *)

Record ProbeResult := {
  duration : pyfloat;
  bitrate : Z;
  width : Z;
  height : Z;
  fps : pyval object;
  audio_bitrate : Z;
  audio_channels : Z;
  audio_sample_rate : Z;
  comment : json;
}.

(** [next((s for s in streams if s['codec_type'] == kind), None)]: the
    scan stops at the first stream of the kind; a stream before it that
    has no [codec_type] raises. *)
Fixpoint first_stream (kind : string) (streams : list json) : option (option json) :=
  match streams with
  | [] => Some None
  | s :: rest =>
      t ← Json.subscript s "codec_type";
      if Json.eq_str t kind then Some (Some s) else first_stream kind rest
  end.

(** [int(stream.get(key, 0)) if stream else 0] *)
Definition int_field (stream : option json) (key : string) : option Z :=
  match stream with
  | Some s => if Json.truthy s then Json.get s key (JInt 0) ≫= py_int else Some 0
  | None => Some 0
  end.

(** [eval(video_stream.get('r_frame_rate', '0/1')) if video_stream else 0] *)
Definition fps_of (video_stream : option json) : option (pyval object) :=
  match video_stream with
  | Some s =>
      if Json.truthy s
      then Json.get s "r_frame_rate" (JStr "0/1") ≫= py_eval
      else Some (VInt 0)
  | None => Some (VInt 0)
  end.

(** Lines 228-230. *)
Definition audio_bitrate_of (audio_stream : option json) : option Z :=
  match audio_stream with
  | Some s =>
      if Json.truthy s && default false (Json.truthy <$> Json.get s "bit_rate" JNull)
      then (λ b, b / 1000) <$> (Json.get s "bit_rate" (JInt 0) ≫= py_int)
      else Some 0
  | None => Some 0
  end.

(** [format_info.get('tags', {}).get('comment', '')] *)
Definition comment_of (format_info : json) : option json :=
  Json.get format_info "tags" (JDict []) ≫= (λ tags, Json.get tags "comment" (JStr EmptyString)).

(** The body of the [try] after [json.loads]. *)
Definition extract_metadata (data : json) : option ProbeResult :=
  streams ← Json.subscript data "streams" ≫= Json.iter;
  video_stream ← first_stream "video" streams;
  audio_stream ← first_stream "audio" streams;
  format_info ← Json.subscript data "format";
  duration ← Json.get format_info "duration" (JInt 0) ≫= py_float;
  bitrate ← (λ b, b / 1000) <$> (Json.get format_info "bit_rate" (JInt 0) ≫= py_int);
  width ← int_field video_stream "width";
  height ← int_field video_stream "height";
  fps ← fps_of video_stream;
  audio_bitrate ← audio_bitrate_of audio_stream;
  audio_channels ← int_field audio_stream "channels";
  audio_sample_rate ← int_field audio_stream "sample_rate";
  comment ← comment_of format_info;
  Some {| duration := duration; bitrate := bitrate; width := width;
          height := height; fps := fps; audio_bitrate := audio_bitrate;
          audio_channels := audio_channels;
          audio_sample_rate := audio_sample_rate; comment := comment |}.

End Probe.

(** ** Paths, the file system seen by one unit of work, and the log *)

Module Path.

(** A path is its directory part as rendered, separator included (empty
    for a bare file name), and its final component. *)
Record t := make { dir : string; name : string }.

Definition str (p : t) : string := dir p ++ name p.

(** Position of the last dot, as [str.rfind]. *)
Fixpoint rfind_dot (s : string) : option nat :=
  match s with
  | EmptyString => None
  | String c r =>
      match rfind_dot r with
      | Some i => Some (S i)
      | None => if Ascii.eqb c Str.dot then Some 0%nat else None
      end
  end.

(** [PurePath.stem]: the final component without its suffix; a leading or
    a trailing dot starts no suffix. *)
Definition stem (p : t) : string :=
  match rfind_dot (name p) with
  | Some i =>
      if (0 <? i)%nat && (i <? String.length (name p) - 1)%nat
      then String.substring 0 i (name p)
      else name p
  | None => name p
  end.

End Path.

Record Stat := {
  st_size : Z;
  st_birthtime : option pyfloat;   (* absent where the platform has none *)
  st_mtime : pyfloat;
}.

(** What a unit of work reads: [stat] raises ([None]) on a file it cannot
    reach; [ffprobe] is the parsed standard output of the external tool,
    [None] when the process cannot be run or prints no JSON document. *)
Record World := {
  stat : Path.t → option Stat;
  ffprobe : Path.t → option json;
}.

Inductive OpenMode := ModeA | ModeW.

Inductive log_entry :=
| Scanning
| InputMissing
| FoundFiles (n : nat)
| LoadedRecords (n : nat)
| ErrorReadingCsv
| SavedRecords (n : nat) (mode : OpenMode)
| FailedToWrite
| FFprobeFailed (file_name : string)
| CouldNotExtract (name : string)
| ErrorProcessing (file_name : string)
| StartProcessing
| AllRecorded
| Skipping (n : Z)
| Processing (n : nat)
| Finished (success total : nat).

(** ** The catalog row *)

Definition HEADERS : list string :=
  [ "name"; "size"; "duration"; "collection"; "cast"; "tags"; "path";
    "bitrate"; "create_time"; "fps"; "resolution"; "audio_bitrate";
    "audio_channels"; "audio_sampling_rate"; "comment" ].

Record MediaRecord := {
  info_name : string;
  info_size : option string;
  info_duration : string;
  info_collection : string;
  info_cast : string;
  info_tags : string;
  info_path : string;
  info_bitrate : string;
  info_create_time : string;
  info_fps : string;
  info_resolution : string;
  info_audio_bitrate : option string;
  info_audio_channels : Z;
  info_audio_sampling_rate : option string;
  info_comment : json;
}.

Section Unit.
Context `{RT : Runtime}.

Definition get_metadata_ffprobe (w : World) (file_path : Path.t)
  : option ProbeResult * list log_entry :=
  match ffprobe w file_path ≫= extract_metadata with
  | Some meta => (Some meta, [])
  | None => (None, [FFprobeFailed (Path.name file_path)])
  end.

(** [f"{v:.2f}"] on the evaluated frame rate. *)
Definition format_fps (v : pyval object) : option string :=
  match v with
  | VInt z =>
      if Z.abs z <=? 2 ^ 53 then Some (Num.fmt_fixed 2 (inject_Z z))
      else Num.fmt_float 2 <$> float_of_big_int z
  | VFloat x => Some (Num.fmt_float 2 x)
  | VObject o => format_object 2 o
  end.

(** The body of the [try] of [process_single_video]; [None] is an
    exception, which the handler of the function catches. *)
Definition unit_of_work (w : World) (path_video : Path.t) (tag : string)
  : option (option MediaRecord * list log_entry) :=
  let name := Path.stem path_video in
  st ← stat w path_video;
  let size_bytes := st_size st in
  let size_str := format_size size_bytes in
  let c_time := default (st_mtime st) (st_birthtime st) in
  create_time_str ← format_timestamp c_time;
  '(collection, cast) ← parse_filename_metadata (Str.replace Str.space Str.dot name);
  let tag_to := if Str.is_substring "PRT" (Str.upper name) then "PRT" else "XC" in
  let '(meta, probe_log) := get_metadata_ffprobe w path_video in
  match meta with
  | None => Some (None, (probe_log ++ [CouldNotExtract name])%list)
  | Some meta =>
      let res_label := get_res_label (width meta) (height meta) in
      duration_str ← format_duration (duration meta);
      fps_str ← format_fps (fps meta);
      audio_sampling_rate ←
        (if negb (audio_sample_rate meta =? 0)
         then (λ khz, Some (Num.fmt_float 1 khz ++ " kHz"))
                <$> int_true_div (audio_sample_rate meta) 1000
         else Some None);
      let info :=
        {| info_name := name;
           info_size := size_str;
           info_duration := duration_str;
           info_collection := collection;
           info_cast := cast;
           info_tags := tag ++ ", " ++ res_label ++ ", " ++ tag_to;
           info_path := Path.str path_video;
           info_bitrate := Num.str_of_int (bitrate meta) ++ "kbps";
           info_create_time := create_time_str;
           info_fps := fps_str ++ " fps";
           info_resolution :=
             Num.str_of_int (width meta) ++ "x" ++ Num.str_of_int (height meta);
           info_audio_bitrate :=
             if negb (audio_bitrate meta =? 0)
             then Some (Num.str_of_int (audio_bitrate meta) ++ "kbps")
             else None;
           info_audio_channels := audio_channels meta;
           info_audio_sampling_rate := audio_sampling_rate;
           info_comment := comment meta |} in
      Some (Some info, probe_log)
  end.

Definition process_single_video (w : World) (path_video : Path.t) (tag : string)
  : option MediaRecord * list log_entry :=
  match unit_of_work w path_video tag with
  | Some result => result
  | None => (None, [ErrorProcessing (Path.name path_video)])
  end.

(** The cells [csv.DictWriter] writes for a record, in the order of
    [HEADERS]; [None] is written as the empty cell. *)
Definition cells_of (info : MediaRecord) : list string :=
  [ info_name info; default EmptyString (info_size info); info_duration info;
    info_collection info; info_cast info; info_tags info; info_path info;
    info_bitrate info; info_create_time info; info_fps info;
    info_resolution info; default EmptyString (info_audio_bitrate info);
    Num.str_of_int (info_audio_channels info);
    default EmptyString (info_audio_sampling_rate info);
    str_of_json (info_comment info) ].

End Unit.

(** ** The catalog file

    The file is seen at the level of parsed CSV lines: a line is the list of
    its cells; [Bad] is the point from which reading raises, a line with a
    field beyond the field limit of the reader or the start of a block of
    bytes that do not decode.  Quoting and encoding are those of the [csv]
    module and are not modelled.  An empty list of lines is a file of
    length zero. *)

Inductive fline :=
| Line (cells : list string)
| Bad.

Record CsvFile := {
  content : option (list fline);   (* [None]: the path does not exist *)
  writable : bool;                 (* opening the path for writing succeeds *)
}.

(** A row as [csv.DictReader] yields it: the cell under each field name,
    [None] where the line is short. *)
Abbreviation Row := (list (string * option string)).

Module Csv.

Fixpoint dict_zip (fieldnames cells : list string) : Row :=
  match fieldnames, cells with
  | [], _ => []
  | f :: fs, [] => (f, None) :: dict_zip fs []
  | f :: fs, c :: cs => (f, Some c) :: dict_zip fs cs
  end.

(** [row.get(key)]: a later column of the same name wins. *)
Definition row_get (key : string) (row : Row) : option string :=
  fold_left (λ acc kv, if String.eqb kv.1 key then kv.2 else acc) row None.

(** [bool(row)]: the dict has a field, or the line has cells kept under the
    rest key. *)
Definition row_truthy (fieldnames cells : list string) : bool :=
  match fieldnames, cells with
  | [], [] => false
  | _, _ => true
  end.

Definition str_truthy (v : option string) : bool :=
  match v with
  | Some s => negb (String.eqb s EmptyString)
  | None => false
  end.

End Csv.

(** The loop of [get_existing_records] over the lines after the header.
    The boolean tells whether the loop ran to the end ([true]) or raised
    ([false]); the mapping is the one built so far in both cases. *)
Fixpoint read_rows (fieldnames : list string) (lines : list fline)
    (existing_data : gmap string Row) : gmap string Row * bool :=
  match lines with
  | [] => (existing_data, true)
  | Bad :: _ => (existing_data, false)
  | Line [] :: rest => read_rows fieldnames rest existing_data
  | Line cells :: rest =>
      let row := Csv.dict_zip fieldnames cells in
      if Csv.row_truthy fieldnames cells && Csv.str_truthy (Csv.row_get "name" row)
      then read_rows fieldnames rest
             (<[default EmptyString (Csv.row_get "name" row) := row]> existing_data)
      else read_rows fieldnames rest existing_data
  end.

Definition get_existing_records (csv : CsvFile) : gmap string Row * list log_entry :=
  let existing_data : gmap string Row := ∅ in
  match content csv with
  | None => (existing_data, [])
  | Some [] => (existing_data, [LoadedRecords (size existing_data)])
  | Some (Bad :: _) => (existing_data, [ErrorReadingCsv])
  | Some (Line fieldnames :: rest) =>
      let '(existing_data, finished) := read_rows fieldnames rest existing_data in
      (existing_data,
       [if finished then LoadedRecords (size existing_data) else ErrorReadingCsv])
  end.

(** What the writer is asked to write, in order. *)
Inductive wevent :=
| WHeader
| WRow (info : MediaRecord).

Section Writer.
Context `{RT : Runtime}.

Definition render (e : wevent) : fline :=
  match e with
  | WHeader => Line HEADERS
  | WRow info => Line (cells_of info)
  end.

Definition write_header (csv : CsvFile) (mode : OpenMode) : bool :=
  match mode, content csv with
  | ModeW, _ => true
  | ModeA, None => true
  | ModeA, Some lines => match lines with [] => true | _ => false end
  end.

(** The calls made on the writer inside the [with] block. *)
Definition writes (data_list : list MediaRecord) (csv : CsvFile) (mode : OpenMode)
  : list wevent :=
  ((if write_header csv mode then [WHeader] else []) ++ map WRow data_list)%list.

Definition save_to_csv (data_list : list MediaRecord) (csv : CsvFile) (mode : OpenMode)
  : CsvFile * list log_entry :=
  match data_list with
  | [] => (csv, [])
  | _ =>
      if writable csv then
        let kept := match mode with
                    | ModeW => []
                    | ModeA => default [] (content csv)
                    end in
        ({| content := Some (kept ++ map render (writes data_list csv mode))%list;
            writable := writable csv |},
         [SavedRecords (length data_list) mode])
      else (csv, [FailedToWrite])
  end.

End Writer.

(** ** Discovery and the run *)

(** What the input path is: a directory, with the files its recursive glob
    returns for a pattern, a single file, or nothing. *)
Inductive InputNode :=
| IsDir (rglob : string → list Path.t)
| IsFile
| Missing.

Definition extensions : list string :=
  ["*.mp4"; "*.mkv"; "*.avi"; "*.mov"; "*.wmv"].

(** The choices a run leaves open: the order in which the set of patterns
    is iterated, and the order in which the dispatched units complete. *)
Record Schedule := {
  ext_order : list string;
  completion : list Path.t → list Path.t;
}.

Definition fair (sch : Schedule) : Prop :=
  ext_order sch ≡ₚ extensions ∧ ∀ files, completion sch files ≡ₚ files.

Record Args := {
  input : Path.t;
  tag : string;
  mode : OpenMode;
  num : Z;
}.

(** [None] is [sys.exit(1)]. *)
Definition get_video_files (sch : Schedule) (node : InputNode) (directory : Path.t)
  : option (list Path.t) * list log_entry :=
  match node with
  | IsDir rglob =>
      let files := concat (map rglob (ext_order sch)) in
      (Some files, [Scanning; FoundFiles (length files)])
  | IsFile => (Some [directory], [Scanning; FoundFiles 1])
  | Missing => (None, [Scanning; InputMissing])
  end.

(** [video.name not in existing_records] *)
Definition not_recorded (existing_records : gmap string Row) (video : Path.t) : bool :=
  negb (bool_decide (is_Some (existing_records !! Path.name video))).

(** The work set of append mode (line 322). *)
Definition files_to_process (all_videos : list Path.t)
    (existing_records : gmap string Row) : list Path.t :=
  List.filter (not_recorded existing_records) all_videos.

Section Main.
Context `{RT : Runtime}.

(** The pool: one unit per dispatched file; a result is kept when the unit
    returns a record.  The log entries of a unit are kept together. *)
Definition run_pool (w : World) (tag : string) (completed : list Path.t)
  : list MediaRecord * list log_entry :=
  let results := map (λ video, process_single_video w video tag) completed in
  (omap fst results, concat (map snd results)).

(** Lines 330-353: dispatch, aggregation and the single write.  A pool of
    no worker cannot be built: the run stops before any unit is
    dispatched. *)
Definition process_and_save (args : Args) (w : World) (csv : CsvFile)
    (sch : Schedule) (to_process : list Path.t) : CsvFile * list log_entry :=
  if num args <=? 0 then (csv, [Processing (length to_process)])
  else
    let '(info_list, unit_log) := run_pool w (tag args) (completion sch to_process) in
    let save_mode :=
      match mode args, content csv with
      | ModeA, Some _ => ModeA
      | _, _ => ModeW
      end in
    let '(csv', save_log) := save_to_csv info_list csv save_mode in
    (csv',
     ([Processing (length to_process)] ++ unit_log
      ++ [Finished (length info_list) (length to_process)] ++ save_log)%list).

Definition main (args : Args) (node : InputNode) (w : World) (csv : CsvFile)
    (sch : Schedule) : CsvFile * list log_entry :=
  match get_video_files sch node (input args) with
  | (None, scan_log) => (csv, (StartProcessing :: scan_log)%list)
  | (Some all_videos, scan_log) =>
      match mode args with
      | ModeA =>
          let '(existing_records, load_log) := get_existing_records csv in
          let to_process := files_to_process all_videos existing_records in
          if (length to_process =? 0)%nat
          then (csv, (StartProcessing :: scan_log ++ load_log ++ [AllRecorded])%list)
          else
            let '(csv', run_log) := process_and_save args w csv sch to_process in
            (csv',
             (StartProcessing :: scan_log ++ load_log
              ++ [Skipping (Z.of_nat (length all_videos) - Z.of_nat (length to_process))]
              ++ run_log)%list)
      | ModeW =>
          let '(csv', run_log) := process_and_save args w csv sch all_videos in
          (csv', (StartProcessing :: scan_log ++ run_log)%list)
      end
  end.

End Main.

(** ** A runtime to run examples with

    Exact arithmetic where the doubles are exact: integers in decimal for
    [int] and [float], the exact quotient for a division, the time stamp
    zero in the zone UTC.  Nothing else is accepted. *)

Module Reference.

Definition decimal (s : string) : option Z :=
  if all_digits s then Some (digits_value 0 s) else None.

Definition runtime : Runtime := {|
  object := Empty_set;
  float_of_str := λ s, (λ z, FFinite (inject_Z z)) <$> decimal s;
  int_of_str := decimal;
  float_of_big_int := λ _, None;
  int_true_div := λ a b,
    match b with
    | Z.pos d => Some (FFinite (a # d))
    | Z.neg d => Some (FFinite (- a # d))
    | Z0 => None
    end;
  eval_other := λ _, None;
  format_object := λ _ o, match o with end;
  str_of_json := λ v, match v with JStr s => s | _ => EmptyString end;
  format_timestamp := λ t,
    match t with
    | FFinite q => if Qnum q =? 0 then Some "1970/01/01 00:00" else None
    | _ => None
    end;
|}.

End Reference.

(** ** Sample inputs *)

Module Sample.

(** The document the probe prints for a clip with one video and one audio
    stream. *)
Definition probe_output : json :=
  JDict [
    ("streams", JList [
       JDict [("codec_type", JStr "video"); ("width", JInt 1920);
              ("height", JInt 1080); ("r_frame_rate", JStr "30/1")];
       JDict [("codec_type", JStr "audio"); ("bit_rate", JStr "128000");
              ("channels", JInt 2); ("sample_rate", JStr "48000")]]);
    ("format", JDict [("duration", JStr "60"); ("bit_rate", JStr "2000000")])].

(** The same clip with a frame rate of denominator zero. *)
Definition probe_zero_den : json :=
  JDict [
    ("streams", JList [
       JDict [("codec_type", JStr "video"); ("width", JInt 1920);
              ("height", JInt 1080); ("r_frame_rate", JStr "30/0")]]);
    ("format", JDict [("duration", JStr "60"); ("bit_rate", JStr "2000000")])].

(** An audio-only file. *)
Definition probe_audio_only : json :=
  JDict [
    ("streams", JList [
       JDict [("codec_type", JStr "audio"); ("channels", JInt 2)]]);
    ("format", JDict [("duration", JStr "60")])].

Definition stat_of (size : Z) : Stat :=
  {| st_size := size; st_birthtime := None; st_mtime := FFinite 0 |}.

(** Every file is a readable clip of 1536 bytes. *)
Definition world : World :=
  {| stat := λ _, Some (stat_of 1536); ffprobe := λ _, Some probe_output |}.

(** No file can be probed. *)
Definition world_unprobed : World :=
  {| stat := λ _, Some (stat_of 1536); ffprobe := λ _, None |}.

(** The files of the directory b cannot be probed, the others can. *)
Definition world_mixed : World :=
  {| stat := λ _, Some (stat_of 1536);
     ffprobe := λ video,
       if String.eqb (Path.dir video) "/videos/b/" then None else Some probe_output |}.

(** Every file is a clip of two tebibytes. *)
Definition world_huge : World :=
  {| stat := λ _, Some (stat_of (2 * 1024 ^ 4)); ffprobe := λ _, Some probe_output |}.

Definition foo : Path.t := Path.make "/videos/" "foo.mp4".
Definition foo_a : Path.t := Path.make "/videos/a/" "foo.mp4".
Definition foo_b : Path.t := Path.make "/videos/b/" "foo.mp4".

Definition dir_of (files : list Path.t) : InputNode :=
  IsDir (λ pattern, if String.eqb pattern "*.mp4" then files else []).

Definition in_order : Schedule :=
  {| ext_order := extensions; completion := λ files, files |}.

Definition args_of (m : OpenMode) : Args :=
  {| input := Path.make "/" "videos"; tag := "home"; mode := m; num := 12 |}.

Definition no_catalog : CsvFile := {| content := None; writable := true |}.

(** A catalog written by an earlier run, with one row for foo. *)
Definition foo_row : list string :=
  ["foo"; "1.5 KB"; "00:01:00"; "Unknown"; "Unknown"; "home, 1080p, XC";
   "/videos/foo.mp4"; "2000kbps"; "1970/01/01 00:00"; "30.00 fps";
   "1920x1080"; "128kbps"; "2"; "48.0 kHz"; EmptyString].

Definition foo_info : MediaRecord :=
  {| info_name := "foo"; info_size := Some "1.5 KB"; info_duration := "00:01:00";
     info_collection := "Unknown"; info_cast := "Unknown";
     info_tags := "home, 1080p, XC"; info_path := "/videos/foo.mp4";
     info_bitrate := "2000kbps"; info_create_time := "1970/01/01 00:00";
     info_fps := "30.00 fps"; info_resolution := "1920x1080";
     info_audio_bitrate := Some "128kbps"; info_audio_channels := 2;
     info_audio_sampling_rate := Some "48.0 kHz"; info_comment := JStr EmptyString |}.

Definition foo_catalog : CsvFile :=
  {| content := Some [Line HEADERS; Line foo_row]; writable := true |}.


End Sample.

(** ** The statements of the specification, in its own words *)

(** The tokens strictly before the first one that reads XXX in any case. *)
Fixpoint before_xxx (tokens : list string) : list string :=
  match tokens with
  | [] => []
  | t :: r => if String.eqb (Str.upper t) "XXX" then [] else t :: before_xxx r
  end.



(** The work set of the specification: the discovered files whose base
    name, the name without its extension, is not a key of the mapping. *)
Definition delta (discovered : list Path.t) (existing : gmap string Row)
  : list Path.t :=
  List.filter (λ file, negb (bool_decide (is_Some (existing !! Path.stem file))))
    discovered.

(** What a character of a date token has to be. *)
Inductive shape := Dot | Digit.

Fixpoint starts_with (sh : list shape) (s : string) : bool :=
  match sh, s with
  | [], _ => true
  | _ :: _, EmptyString => false
  | x :: sh', String c r =>
      match x with Dot => Ascii.eqb c "." | Digit => Str.is_digit c end
      && starts_with sh' r
  end.

(** A date token with the dots that bound it starts the string: a dot,
    four digits, a dot; or a dot, three groups of two digits separated by
    dots, a dot. *)
Definition starts_date_token (s : string) : bool :=
  starts_with [Dot; Digit; Digit; Digit; Digit; Dot] s
  || starts_with [Dot; Digit; Digit; Dot; Digit; Digit; Dot; Digit; Digit; Dot] s.

(** The filename contains a date token somewhere. *)
Fixpoint has_date_token (s : string) : bool :=
  starts_date_token s ||
  match s with
  | EmptyString => false
  | String _ r => has_date_token r
  end.

(** The segment before the first dot, when there is a dot. *)
Fixpoint segment_before_dot (s : string) : option string :=
  match s with
  | EmptyString => None
  | String c r =>
      if Ascii.eqb c "." then Some EmptyString
      else String c <$> segment_before_dot r
  end.

Section Readable.
Context `{RT : Runtime}.

(** The format object of the document is there and its fields convert. *)
Definition format_readable (data : json) : Prop :=
  ∃ format_info,
    Json.subscript data "format" = Some format_info
    ∧ is_Some (Json.get format_info "duration" (JInt 0) ≫= py_float)
    ∧ is_Some (Json.get format_info "bit_rate" (JInt 0) ≫= py_int)
    ∧ is_Some (comment_of format_info).

(** The fields of the audio stream, if any, convert. *)
Definition audio_readable (audio_stream : option json) : Prop :=
  is_Some (audio_bitrate_of audio_stream)
  ∧ is_Some (int_field audio_stream "channels")
  ∧ is_Some (int_field audio_stream "sample_rate").

(** The records of the units that return one, in the order of the files. *)
Definition records_of (w : World) (tag : string) (files : list Path.t)
  : list MediaRecord :=
  omap (λ video, (process_single_video w video tag).1) files.


End Readable.

(** ** Further notions used to state what the code does *)

(** The string holds no newline. *)
Definition no_newline (s : string) : bool := negb (Str.contains Str.newline s).

(** The string holds no dot. *)
Definition dotless (s : string) : bool := negb (Str.contains Str.dot s).


(** The short sides from which [get_res_label] gives a fixed label. *)
Definition res_thresholds : list Z := [2160; 1080; 720; 540; 480].

(** The name and the row a line of the catalog is loaded under: none for a
    blank line, a line the reader raises on, and a line whose name cell is
    missing or empty. *)
Definition named_row (fieldnames : list string) (line : fline)
  : option (string * Row) :=
  match line with
  | Line (c :: cs) =>
      let row := Csv.dict_zip fieldnames (c :: cs) in
      match Csv.row_get "name" row with
      | Some n => if String.eqb n EmptyString then None else Some (n, row)
      | None => None
      end
  | _ => None
  end.


(** ** Properties of the filename parser *)

Section ParserFacts.




Lemma truncate_xxx_before tokens : truncate_xxx tokens = Some (before_xxx tokens).
Proof.
  unfold truncate_xxx.
  induction tokens as [|t r IH]; [reflexivity|].
  cbn [map before_xxx]. unfold Str.mem in *. cbn [existsb Str.index].
  rewrite (String.eqb_sym "XXX").
  destruct (String.eqb (Str.upper t) "XXX"); cbn [orb]; [reflexivity|].
  destruct (existsb (String.eqb "XXX") (map Str.upper r)).
  - destruct (Str.index "XXX" (map Str.upper r)) as [i|];
      cbn [mbind option_bind fmap option_fmap option_map] in *.
    + injection IH as IH. cbn [take firstn]. congruence.
    + discriminate.
  - congruence.
Qed.










(** The scan finds a date token exactly when one starts somewhere in the
    string. *)
Lemma has_date_token_somewhere s :
  has_date_token s = true
  ↔ ∃ pre rest, s = pre ++ rest ∧ starts_date_token rest = true.
Proof.
  split.
  - induction s as [|c r IH]; cbn [has_date_token].
    + rewrite orb_false_r. intros H. exists EmptyString, EmptyString. split; [reflexivity|exact H].
    + intros [H|H]%orb_prop.
      * exists EmptyString, (String c r). split; [reflexivity|exact H].
      * destruct (IH H) as (pre & rest & -> & Hrest).
        exists (String c pre), rest. split; [reflexivity|exact Hrest].
  - intros (pre & rest & -> & Hrest).
    induction pre as [|c pre IH].
    + change (EmptyString ++ rest) with rest. destruct rest; cbn [has_date_token];
        rewrite Hrest; reflexivity.
    + change (String c pre ++ rest) with (String c (pre ++ rest)).
      cbn [has_date_token]. rewrite IH. apply orb_true_r.
Qed.

Lemma split_first_segment s :
  (if Str.contains Str.dot s then Str.split Str.dot s !! 0%nat else Some "Unknown")
  = Some (default "Unknown" (segment_before_dot s)).
Proof.
  assert (H : ∀ s, (Str.contains Str.dot s = true →
                     Str.split Str.dot s !! 0%nat = segment_before_dot s
                     ∧ is_Some (segment_before_dot s))
                   ∧ (Str.contains Str.dot s = false → segment_before_dot s = None)).
  { clear s. induction s as [|c r [IHt IHf]]; [split; [discriminate|reflexivity]|].
    cbn [Str.contains Str.split segment_before_dot]. unfold Str.dot in *.
    destruct (Ascii.eqb c "."); cbn [orb].
    - split; [intros _; split; [reflexivity|eauto]|discriminate].
    - split.
      + intros Hc. destruct (IHt Hc) as [Heq [seg Hseg]]. rewrite Hseg in *.
        destruct (Str.split "." r) as [|w ws]; [discriminate|].
        cbn in Heq |- *. injection Heq as ->. split; [reflexivity|eauto].
      + intros Hc. rewrite (IHf Hc). reflexivity. }
  destruct (H s) as [Ht Hf]. destruct (Str.contains Str.dot s).
  - destruct (Ht eq_refl) as [-> [seg ->]]. reflexivity.
  - rewrite (Hf eq_refl). reflexivity.
Qed.







End ParserFacts.

Example parse_examples :
  parse_filename_metadata "Sunset.Valley.25.06.01.Alice.Bob.XXX.1080p"
    = Some ("Sunset Valley", "Alice Bob")
  ∧ parse_filename_metadata "Show.2024.Carol.And.Dave.Eve" = Some ("Show", "Carol, Dave Eve")
  ∧ parse_filename_metadata "A.2024.P.Q.R.And.S" = Some ("A", "P Q")
  ∧ parse_filename_metadata "A.2024.P.Q.And.R.S.T" = Some ("A", "P Q, R S")
  ∧ parse_filename_metadata "holiday" = Some ("Unknown", "Unknown")
  ∧ parse_filename_metadata ".2024.a" = Some (EmptyString, "Unknown")
  ∧ parse_filename_metadata "a.12345.b" = Some ("a", "Unknown").
Proof. repeat split. Qed.

(** ** Properties of the size formatter *)

Section SizeFacts.

Lemma div_1024_le (q : Q) (m : Z) :
  (inject_Z (1024 * m) <= q)%Q → (inject_Z m <= q / 1024)%Q.
Proof.
  destruct q as [n d]. unfold Qle, Qdiv, Qmult, Qinv, inject_Z. cbn.
  rewrite Pos2Z.inj_mul. lia.
Qed.

Lemma div_1024_lt (q : Q) (m : Z) :
  (q < inject_Z (1024 * m))%Q → (q / 1024 < inject_Z m)%Q.
Proof.
  destruct q as [n d]. unfold Qlt, Qdiv, Qmult, Qinv, inject_Z. cbn.
  rewrite Pos2Z.inj_mul. lia.
Qed.

Lemma pow_1024_succ (n : nat) : 1024 ^ Z.of_nat (S n) = 1024 * 1024 ^ Z.of_nat n.
Proof. rewrite Nat2Z.inj_succ, Z.pow_succ_r by lia. reflexivity. Qed.

Lemma loop_falls_off units (q : Q) :
  (inject_Z (1024 ^ Z.of_nat (length units)) <= q)%Q →
  format_size_loop units q = None.
Proof.
  revert q. induction units as [|unit units IH]; intros q Hq; [reflexivity|].
  cbn [format_size_loop]. cbn [length] in Hq. rewrite pow_1024_succ in Hq.
  destruct (Qlt_le_dec q 1024) as [Hlt|_].
  - exfalso. apply (Qlt_not_le _ _ Hlt). eapply Qle_trans; [|exact Hq].
    unfold Qle, inject_Z. cbn.
    assert (0 < 1024 ^ Z.of_nat (length units)) by (apply Z.pow_pos_nonneg; lia).
    lia.
  - apply IH. apply div_1024_le. exact Hq.
Qed.

Lemma loop_returns first units (q : Q) :
  (q < inject_Z (1024 ^ Z.of_nat (S (length units))))%Q →
  ∃ digits u, u ∈ first :: units
    ∧ format_size_loop (first :: units) q = Some (digits ++ " " ++ u).
Proof.
  revert first q. induction units as [|second units IH]; intros first q Hq;
    cbn [format_size_loop]; destruct (Qlt_le_dec q 1024) as [Hlt|Hge].
  - exists (Num.fmt_fixed 1 q), first. split; [left|reflexivity].
  - exfalso. apply (Qlt_not_le _ _ Hq). exact Hge.
  - exists (Num.fmt_fixed 1 q), first. split; [left|reflexivity].
  - rewrite pow_1024_succ in Hq.
    destruct (IH second (q / 1024)%Q (div_1024_lt _ _ Hq)) as (digits & u & Hu & Heq).
    exists digits, u. split; [right; exact Hu|exact Heq].
Qed.

End SizeFacts.

(** ** Properties of one unit of work *)

Section UnitFacts.
Context `{RT : Runtime}.

(** A unit that returns a record: the record is keyed by the stem of the
    file, holds what [format_size] returned, and nothing was logged. *)
Lemma unit_success w path_video tag info log :
  process_single_video w path_video tag = (Some info, log) →
  ∃ st meta,
    stat w path_video = Some st
    ∧ ffprobe w path_video ≫= extract_metadata = Some meta
    ∧ info_name info = Path.stem path_video
    ∧ info_size info = format_size (st_size st)
    ∧ info_path info = Path.str path_video
    ∧ log = [].
Proof.
  unfold process_single_video, unit_of_work, get_metadata_ffprobe.
  destruct (stat w path_video) as [st|]; cbn [mbind option_bind]; [|discriminate].
  destruct (format_timestamp _) as [ts|]; cbn [mbind option_bind]; [|discriminate].
  destruct (parse_filename_metadata _) as [[collection cast]|];
    cbn [mbind option_bind]; [|discriminate].
  destruct (ffprobe w path_video ≫= extract_metadata) as [meta|]; [|discriminate].
  destruct (format_duration _) as [d|]; cbn [mbind option_bind]; [|discriminate].
  destruct (format_fps _) as [f|]; cbn [mbind option_bind]; [|discriminate].
  destruct (if negb (audio_sample_rate meta =? 0) then _ else _) as [a|];
    cbn [mbind option_bind]; [|discriminate].
  intros [= <- <-]. exists st, meta. repeat split; reflexivity.
Qed.

(** A unit that returns nothing has logged the file: either the handler of
    the unit caught an exception, or the probe failed. *)
Lemma unit_failure w path_video tag log :
  process_single_video w path_video tag = (None, log) →
  log = [ErrorProcessing (Path.name path_video)]
  ∨ (ffprobe w path_video ≫= extract_metadata = None
     ∧ log = [FFprobeFailed (Path.name path_video);
              CouldNotExtract (Path.stem path_video)]).
Proof.
  unfold process_single_video, unit_of_work, get_metadata_ffprobe.
  destruct (stat w path_video) as [st|]; cbn [mbind option_bind];
    [|intros [= <-]; left; reflexivity].
  destruct (format_timestamp _) as [ts|]; cbn [mbind option_bind];
    [|intros [= <-]; left; reflexivity].
  destruct (parse_filename_metadata _) as [[collection cast]|];
    cbn [mbind option_bind]; [|intros [= <-]; left; reflexivity].
  destruct (ffprobe w path_video ≫= extract_metadata) as [meta|];
    [|intros [= <-]; right; split; reflexivity].
  destruct (format_duration _) as [d|]; cbn [mbind option_bind];
    [|intros [= <-]; left; reflexivity].
  destruct (format_fps _) as [f|]; cbn [mbind option_bind];
    [|intros [= <-]; left; reflexivity].
  destruct (if negb (audio_sample_rate meta =? 0) then _ else _) as [a|];
    cbn [mbind option_bind]; [discriminate|intros [= <-]; left; reflexivity].
Qed.

(** A failed probe alone makes the unit return nothing. *)
Lemma probe_failure_unit w path_video tag :
  ffprobe w path_video ≫= extract_metadata = None →
  (process_single_video w path_video tag).1 = None.
Proof.
  intros Hprobe.
  unfold process_single_video, unit_of_work, get_metadata_ffprobe.
  rewrite Hprobe.
  destruct (stat w path_video) as [st|]; cbn [mbind option_bind]; [|reflexivity].
  destruct (format_timestamp _) as [ts|]; cbn [mbind option_bind]; [|reflexivity].
  destruct (parse_filename_metadata _) as [[collection cast]|];
    cbn [mbind option_bind]; reflexivity.
Qed.

End UnitFacts.

(** C10.  From 1024^4 bytes on, [format_size] returns no string, and the
    size field of the record of such a file is [None]; below that bound it
    returns digits, a space and one of the units B, KB, MB, GB. *)
Theorem format_size_beyond_gigabytes (size_bytes : Z) :
  (1024 ^ 4 ≤ size_bytes →
     format_size size_bytes = None
     ∧ ∀ (RT : Runtime) w path_video tag st info log,
         stat w path_video = Some st → st_size st = size_bytes →
         process_single_video w path_video tag = (Some info, log) →
         info_size info = None)
  ∧ (size_bytes < 1024 ^ 4 →
     ∃ digits unit, unit ∈ size_units
       ∧ format_size size_bytes = Some (digits ++ " " ++ unit)).
Proof.
  split.
  - intros Hbig.
    assert (Hnone : format_size size_bytes = None).
    { apply loop_falls_off. rewrite <- Zle_Qle. exact Hbig. }
    split; [exact Hnone|].
    intros RT w path_video tag st info log Hstat Hsize Hunit.
    destruct (unit_success _ _ _ _ _ Hunit) as (st' & meta & Hstat' & _ & _ & Hsz & _).
    rewrite Hstat in Hstat'. injection Hstat' as <-.
    rewrite Hsz, Hsize. exact Hnone.
  - intros Hsmall. apply (loop_returns "B" ["KB"; "MB"; "GB"]).
    rewrite <- Zlt_Qlt. exact Hsmall.
Qed.

Lemma format_size_beyond_gigabytes_witness :
  (format_size (2 * 1024 ^ 4) = None
   ∧ (process_single_video (RT := Reference.runtime) Sample.world_huge Sample.foo "home").1
       ≫= info_size = None)
  ∧ format_size 1536 = Some "1.5 KB".
Proof.
  split.
  - destruct (format_size_beyond_gigabytes (2 * 1024 ^ 4)) as [Hbig _].
    split; [apply Hbig; vm_compute; discriminate|]. vm_compute. reflexivity.
  - vm_compute. reflexivity.
Defined.

Example stem_examples :
  Path.stem (Path.make "/v/" "foo.mp4") = "foo"
  ∧ Path.stem (Path.make "/v/" "a.b.mkv") = "a.b"
  ∧ Path.stem (Path.make "/v/" ".mp4") = ".mp4"
  ∧ Path.stem (Path.make "/v/" "foo.") = "foo."
  ∧ Path.stem (Path.make EmptyString "foo") = "foo".
Proof. repeat split. Qed.

Example format_size_examples :
  format_size 0 = Some "0.0 B"
  ∧ format_size 1023 = Some "1023.0 B"
  ∧ format_size 1536 = Some "1.5 KB"
  ∧ format_size 1600 = Some "1.6 KB"
  ∧ format_size (1024 * 1024 + 1024 * 256) = Some "1.2 MB"
  ∧ format_size (1024 ^ 4 - 1) = Some "1024.0 GB"
  ∧ format_size (1024 ^ 4) = None.
Proof. vm_compute. repeat split. Qed.

Example format_duration_examples :
  format_duration (FFinite 0) = Some "00:00:00"
  ∧ format_duration (FFinite (7325.9)) = Some "02:02:05"
  ∧ format_duration FNan = None.
Proof. vm_compute. repeat split. Qed.

Example huge_file_record :
  (process_single_video (RT := Reference.runtime) Sample.world_huge Sample.foo "home").1
  = Some {| info_name := "foo"; info_size := None; info_duration := "00:01:00";
            info_collection := "Unknown"; info_cast := "Unknown";
            info_tags := "home, 1080p, XC"; info_path := "/videos/foo.mp4";
            info_bitrate := "2000kbps"; info_create_time := "1970/01/01 00:00";
            info_fps := "30.00 fps"; info_resolution := "1920x1080";
            info_audio_bitrate := Some "128kbps"; info_audio_channels := 2;
            info_audio_sampling_rate := Some "48.0 kHz"; info_comment := JStr EmptyString |}.
Proof. vm_compute. reflexivity. Qed.

(** ** Properties of the catalog reader and writer *)

Section CatalogFacts.
Context `{RT : Runtime}.

Lemma read_rows_to_end fieldnames lines m :
  Bad ∉ lines → (read_rows fieldnames lines m).2 = true.
Proof.
  revert m. induction lines as [|[cells|] rest IH]; intros m Hbad.
  - reflexivity.
  - assert (Hrest : Bad ∉ rest) by (intros H; apply Hbad; right; exact H).
    cbn [read_rows]. destruct cells; [apply IH; exact Hrest|].
    destruct (_ && _); apply IH; exact Hrest.
  - exfalso. apply Hbad. left.
Qed.







End CatalogFacts.


(** ** The work set and the second run *)

Section WorkSetFacts.

(** What line 322 computes: the discovered files whose file name, suffix
    included, is not a key of the mapping. *)
Lemma files_to_process_spec all_videos (existing_records : gmap string Row) video :
  video ∈ files_to_process all_videos existing_records
  ↔ video ∈ all_videos ∧ existing_records !! Path.name video = None.
Proof.
  unfold files_to_process. rewrite !list_elem_of_In, filter_In.
  unfold not_recorded. rewrite negb_true_iff, bool_decide_eq_false.
  rewrite <- eq_None_not_Some. tauto.
Qed.

End WorkSetFacts.

(** C1.  The code at the failing input: the catalog holds the key foo, the
    stem of the discovered file foo.mp4, which is the key its record would
    get; the work set of the specification is empty, but line 322 looks the
    file name foo.mp4 up, so the file stays in the work set. *)
Theorem work_set_keeps_recorded_stem :
  let existing_records := (get_existing_records Sample.foo_catalog).1 in
  Path.stem Sample.foo = "foo"
  ∧ is_Some (existing_records !! Path.stem Sample.foo)
  ∧ (info_name <$> (process_single_video (RT := Reference.runtime)
                      Sample.world Sample.foo "home").1) = Some "foo"
  ∧ delta [Sample.foo] existing_records = []
  ∧ files_to_process [Sample.foo] existing_records = [Sample.foo].
Proof. vm_compute. repeat split. eauto. Qed.

(** C2.  The code at the failing input: two runs in append mode over the
    same directory with the single clip foo.mp4, starting without a catalog.
    The first run writes the header and the row of foo; the work set of the
    second run is not empty: it dispatches foo.mp4 again and appends a
    second row of foo. *)
Theorem second_append_run_adds_row :
  let run csv :=
    (main (RT := Reference.runtime) (Sample.args_of ModeA)
       (Sample.dir_of [Sample.foo]) Sample.world csv Sample.in_order).1 in
  content (run Sample.no_catalog) = Some [Line HEADERS; Line Sample.foo_row]
  ∧ files_to_process [Sample.foo] (get_existing_records (run Sample.no_catalog)).1
    = [Sample.foo]
  ∧ content (run (run Sample.no_catalog))
    = Some [Line HEADERS; Line Sample.foo_row; Line Sample.foo_row].
Proof. vm_compute. repeat split. Qed.

(** ** Properties of the probe *)

Section ProbeFacts.
Context `{RT : Runtime}.

Lemma first_stream_dict kind streams s :
  first_stream kind streams = Some (Some s) → Json.truthy s = true.
Proof.
  induction streams as [|x rest IH]; [discriminate|].
  cbn [first_stream].
  destruct (Json.subscript x "codec_type") as [t|] eqn:Hsub;
    cbn [mbind option_bind]; [|discriminate].
  destruct (Json.eq_str t kind); [|exact IH].
  intros [= <-]. destruct x; try discriminate.
  destruct items; [discriminate|reflexivity].
Qed.

Lemma first_stream_total kind kind' streams :
  first_stream kind streams = Some None → is_Some (first_stream kind' streams).
Proof.
  induction streams as [|x rest IH]; [eauto|].
  cbn [first_stream].
  destruct (Json.subscript x "codec_type") as [t|];
    cbn [mbind option_bind]; [|discriminate].
  destruct (Json.eq_str t kind); [discriminate|].
  destruct (Json.eq_str t kind'); eauto.
Qed.

Lemma digit_not_slash c : Str.is_digit c = true → Ascii.eqb c "/" = false.
Proof.
  destruct (Ascii.eqb_spec c "/") as [->|]; [discriminate|reflexivity].
Qed.

Lemma split_slash_digits num den :
  forallb Str.is_digit (list_ascii_of_string num) = true →
  split_slash (num ++ "/" ++ den) = Some (num, den).
Proof.
  induction num as [|c r IH]; [reflexivity|].
  cbn [list_ascii_of_string forallb]. intros [Hc Hr]%andb_prop.
  change (String c r ++ "/" ++ den) with (String c (r ++ "/" ++ den)).
  cbn [split_slash]. rewrite (digit_not_slash _ Hc), (IH Hr). reflexivity.
Qed.

Lemma ratio_literal_ratio num den :
  all_digits num = true → all_digits den = true →
  ratio_literal (num ++ "/" ++ den) = Some (num, den).
Proof.
  intros Hnum Hden. unfold ratio_literal.
  rewrite split_slash_digits by (apply andb_prop in Hnum; tauto).
  cbn [mbind option_bind fst snd]. rewrite Hnum, Hden. reflexivity.
Qed.

(** A quotient of digits whose denominator is zero raises. *)
Lemma eval_zero_den num den :
  all_digits num = true → all_digits den = true → digits_value 0 den = 0 →
  py_eval (JStr (num ++ "/" ++ den)) = None.
Proof.
  intros Hnum Hden Hzero. unfold py_eval.
  rewrite (ratio_literal_ratio _ _ Hnum Hden).
  destruct (int_literal num) as [n|]; cbn [mbind option_bind]; [|reflexivity].
  unfold int_literal. rewrite Hzero. reflexivity.
Qed.

Lemma extract_without_fps data streams video_stream :
  Json.subscript data "streams" ≫= Json.iter = Some streams →
  first_stream "video" streams = Some video_stream →
  fps_of video_stream = None →
  extract_metadata data = None.
Proof.
  intros Hstreams Hvideo Hfps. unfold extract_metadata.
  rewrite Hstreams. cbn [mbind option_bind]. rewrite Hvideo. cbn [mbind option_bind].
  destruct (first_stream "audio" streams); cbn [mbind option_bind]; [|reflexivity].
  destruct (Json.subscript data "format"); cbn [mbind option_bind]; [|reflexivity].
  destruct (Json.get _ "duration" _ ≫= py_float); cbn [mbind option_bind]; [|reflexivity].
  destruct (_ <$> (Json.get _ "bit_rate" _ ≫= py_int)); cbn [mbind option_bind];
    [|reflexivity].
  destruct (int_field video_stream "width"); cbn [mbind option_bind]; [|reflexivity].
  destruct (int_field video_stream "height"); cbn [mbind option_bind]; [|reflexivity].
  rewrite Hfps. reflexivity.
Qed.

Lemma extract_without_video data streams :
  Json.subscript data "streams" ≫= Json.iter = Some streams →
  first_stream "video" streams = Some None →
  format_readable data →
  (∀ audio_stream, first_stream "audio" streams = Some audio_stream →
                   audio_readable audio_stream) →
  ∃ meta, extract_metadata data = Some meta
          ∧ fps meta = VInt 0 ∧ width meta = 0 ∧ height meta = 0.
Proof.
  intros Hstreams Hvideo (format_info & Hformat & [d Hd] & [b Hb] & [c Hc]) Haudio.
  destruct (first_stream_total "video" "audio" streams Hvideo) as [audio Ha].
  destruct (Haudio audio Ha) as ([ab Hab] & [ac Hac] & [asr Hasr]).
  unfold extract_metadata.
  rewrite Hstreams. cbn [mbind option_bind]. rewrite Hvideo, Ha. cbn [mbind option_bind].
  rewrite Hformat. cbn [mbind option_bind]. rewrite Hd. cbn [mbind option_bind].
  rewrite Hb. cbn [mbind option_bind fmap option_fmap option_map int_field fps_of].
  rewrite Hab. cbn [mbind option_bind]. rewrite Hac. cbn [mbind option_bind].
  rewrite Hasr. cbn [mbind option_bind]. rewrite Hc. cbn [mbind option_bind].
  eexists. split; [reflexivity|]. repeat split.
Qed.

Lemma get_of_subscript s key v dflt :
  Json.subscript s key = Some v → Json.get s key dflt = Some v.
Proof.
  destruct s; try discriminate. cbn [Json.subscript Json.get].
  intros ->. reflexivity.
Qed.

(** C3 (as amended).  On an output with no video stream whose format object
    and audio stream convert, the probe succeeds with fps 0 (and width and
    height 0).  On an output whose first video stream has the frame rate
    digits/digits with a denominator that is zero, evaluating the field
    raises, the handler of the probe catches it and the probe returns
    nothing, so the unit of the file returns no record.  The field is
    evaluated as an expression: a text that is not digits/digits is handed
    to the evaluator as it is. *)
Theorem frame_rate_evaluation (data : json) (streams : list json) :
  Json.subscript data "streams" ≫= Json.iter = Some streams →
  (first_stream "video" streams = Some None →
   format_readable data →
   (∀ audio_stream, first_stream "audio" streams = Some audio_stream →
                    audio_readable audio_stream) →
   ∃ meta, extract_metadata data = Some meta
           ∧ fps meta = VInt 0 ∧ width meta = 0 ∧ height meta = 0)
  ∧ (∀ s num den,
       first_stream "video" streams = Some (Some s) →
       Json.subscript s "r_frame_rate" = Some (JStr (num ++ "/" ++ den)) →
       all_digits num = true → all_digits den = true → digits_value 0 den = 0 →
       extract_metadata data = None
       ∧ ∀ w path_video tag,
           ffprobe w path_video = Some data →
           process_single_video w path_video tag
           = (None, [FFprobeFailed (Path.name path_video);
                     CouldNotExtract (Path.stem path_video)])
           ∨ process_single_video w path_video tag
             = (None, [ErrorProcessing (Path.name path_video)]))
  ∧ (∀ src, ratio_literal src = None → py_eval (JStr src) = eval_other src).
Proof.
  intros Hstreams. split; [|split].
  - intros Hvideo Hformat Haudio.
    exact (extract_without_video data streams Hstreams Hvideo Hformat Haudio).
  - intros s num den Hvideo Hrate Hnum Hden Hzero.
    assert (Hnone : extract_metadata data = None).
    { apply (extract_without_fps data streams (Some s) Hstreams Hvideo).
      unfold fps_of. rewrite (first_stream_dict _ _ _ Hvideo).
      rewrite (get_of_subscript _ _ _ _ Hrate). cbn [mbind option_bind].
      exact (eval_zero_den num den Hnum Hden Hzero). }
    split; [exact Hnone|].
    intros w path_video tag Hprobe.
    destruct (process_single_video w path_video tag) as [[info|] log] eqn:Hunit.
    + destruct (unit_success _ _ _ _ _ Hunit) as (st & meta & _ & Hmeta & _).
      rewrite Hprobe in Hmeta. cbn [mbind option_bind] in Hmeta. congruence.
    + destruct (unit_failure _ _ _ _ Hunit) as [-> | [_ ->]]; [right|left]; reflexivity.
  - intros src Hsrc. unfold py_eval. rewrite Hsrc. reflexivity.
Qed.

End ProbeFacts.

Lemma frame_rate_evaluation_witness :
  (∃ meta, extract_metadata (RT := Reference.runtime) Sample.probe_audio_only = Some meta
           ∧ fps meta = VInt 0 ∧ width meta = 0 ∧ height meta = 0)
  ∧ extract_metadata (RT := Reference.runtime) Sample.probe_zero_den = None.
Proof.
  split.
  - destruct (frame_rate_evaluation (RT := Reference.runtime) Sample.probe_audio_only
                [JDict [("codec_type", JStr "audio"); ("channels", JInt 2)]] eq_refl)
      as (Hno_video & _ & _).
    apply Hno_video.
    + reflexivity.
    + eexists. split; [reflexivity|]. repeat split; vm_compute; eauto.
    + intros audio_stream [= <-]. repeat split; vm_compute; eauto.
  - destruct (frame_rate_evaluation (RT := Reference.runtime) Sample.probe_zero_den
                [JDict [("codec_type", JStr "video"); ("width", JInt 1920);
                        ("height", JInt 1080); ("r_frame_rate", JStr "30/0")]] eq_refl)
      as (_ & Hzero & _).
    exact (proj1 (Hzero _ "30" "0" eq_refl eq_refl eq_refl eq_refl eq_refl)).
Defined.

(** C3, the claim as stated fails: the output whose video stream has the
    frame rate 30/0 makes the probe return nothing, where the claim has it
    succeed with fps 0; with the frame rate 30/1 the same output is
    probed. *)
Lemma zero_denominator_counterexample :
  extract_metadata (RT := Reference.runtime) Sample.probe_zero_den = None
  ∧ get_metadata_ffprobe (RT := Reference.runtime)
      {| stat := λ _, Some (Sample.stat_of 1536);
         ffprobe := λ _, Some Sample.probe_zero_den |} Sample.foo
    = (None, [FFprobeFailed "foo.mp4"])
  ∧ (fps <$> extract_metadata (RT := Reference.runtime) Sample.probe_output)
    = Some (VFloat (FFinite (30 # 1))).
Proof. vm_compute. repeat split. Qed.

(** ** Properties of the run *)

Section RunFacts.
Context `{RT : Runtime}.

Lemma omap_step {A B} (f : A → option B) (x : A) (l : list A) :
  omap f (x :: l) = match f x with Some y => y :: omap f l | None => omap f l end.
Proof. reflexivity. Qed.

Lemma run_pool_records w tag completed :
  (run_pool w tag completed).1 = records_of w tag completed.
Proof.
  unfold run_pool, records_of. cbn [fst].
  induction completed as [|video rest IH]; [reflexivity|].
  cbn [map]. rewrite !omap_step, IH. reflexivity.
Qed.

Lemma run_pool_log w tag completed video :
  video ∈ completed →
  ∀ entry, entry ∈ (process_single_video w video tag).2 →
           entry ∈ (run_pool w tag completed).2.
Proof.
  intros Hin entry Hentry. unfold run_pool. cbn [snd].
  rewrite list_elem_of_In. apply in_concat.
  exists (process_single_video w video tag).2. split.
  - apply (in_map snd _ (process_single_video w video tag)).
    apply (in_map (λ v, process_single_video w v tag)).
    apply list_elem_of_In. exact Hin.
  - apply list_elem_of_In. exact Hentry.
Qed.

Lemma records_of_elem w tag files info :
  info ∈ records_of w tag files
  ↔ ∃ video, video ∈ files ∧ (process_single_video w video tag).1 = Some info.
Proof. unfold records_of. apply list_elem_of_omap. Qed.

Lemma records_of_perm w tag files files' :
  files ≡ₚ files' → records_of w tag files ≡ₚ records_of w tag files'.
Proof. intros Hperm. unfold records_of. rewrite Hperm. reflexivity. Qed.



(** What [process_and_save] leaves on disk: the file as [save_to_csv] writes
    it from the records of the units that returned one. *)
Lemma process_and_save_csv args w csv sch to_process :
  0 < num args →
  (process_and_save args w csv sch to_process).1
  = (save_to_csv (records_of w (tag args) (completion sch to_process)) csv
       match mode args, content csv with
       | ModeA, Some _ => ModeA
       | _, _ => ModeW
       end).1.
Proof.
  intros Hnum. unfold process_and_save.
  destruct (Z.leb_spec (num args) 0) as [?|_]; [lia|].
  rewrite <- run_pool_records.
  destruct (run_pool w (tag args) (completion sch to_process)) as [info_list unit_log].
  cbn [fst]. destruct (save_to_csv info_list csv _) as [csv' save_log]. reflexivity.
Qed.

Lemma process_and_save_aborts args w csv sch to_process :
  num args ≤ 0 → (process_and_save args w csv sch to_process).1 = csv.
Proof.
  intros Hnum. unfold process_and_save.
  destruct (Z.leb_spec (num args) 0) as [_|?]; [reflexivity|lia].
Qed.

(** A line of the file after [save_to_csv] was there before, or is the
    header, or is the row of one of the records. *)
Lemma save_to_csv_lines data_list csv open_mode line :
  line ∈ default [] (content (save_to_csv data_list csv open_mode).1) →
  line ∈ default [] (content csv)
  ∨ line = Line HEADERS
  ∨ ∃ info, info ∈ data_list ∧ line = Line (cells_of info).
Proof.
  unfold save_to_csv. destruct data_list as [|info rest] eqn:Hdata; [tauto|].
  rewrite <- Hdata. clear Hdata.
  destruct (writable csv); [|tauto].
  cbn [fst content default from_option id]. rewrite elem_of_app.
  intros [Hkept|Hnew].
  - left. destruct open_mode; [exact Hkept|]. apply elem_of_nil in Hkept. tauto.
  - right. apply list_elem_of_fmap in Hnew. destruct Hnew as (e & -> & He).
    unfold writes in He. apply elem_of_app in He. destruct He as [He|He].
    + left. destruct (write_header csv open_mode).
      * apply list_elem_of_singleton in He. subst e. reflexivity.
      * apply elem_of_nil in He. tauto.
    + right. apply list_elem_of_fmap in He. destruct He as (i & -> & Hi).
      exists i. split; [exact Hi|reflexivity].
Qed.


Lemma stat_failure_unit w path_video tag :
  stat w path_video = None →
  process_single_video w path_video tag
  = (None, [ErrorProcessing (Path.name path_video)]).
Proof.
  intros Hstat. unfold process_single_video, unit_of_work. rewrite Hstat. reflexivity.
Qed.

Lemma process_and_save_lines args w csv sch to_process line :
  fair sch →
  line ∈ default [] (content (process_and_save args w csv sch to_process).1) →
  line ∈ default [] (content csv)
  ∨ line = Line HEADERS
  ∨ ∃ video info, video ∈ to_process
      ∧ (process_single_video w video (tag args)).1 = Some info
      ∧ line = Line (cells_of info).
Proof.
  intros [_ Hfair] Hline.
  destruct (Z.leb_spec (num args) 0) as [Hnum|Hnum].
  - left. rewrite (process_and_save_aborts _ _ _ _ _ Hnum) in Hline. exact Hline.
  - rewrite (process_and_save_csv _ _ _ _ _ Hnum) in Hline.
    apply save_to_csv_lines in Hline.
    destruct Hline as [Hold|[Hheader|(info & Hinfo & Hrow)]]; [tauto|tauto|].
    right. right. apply records_of_elem in Hinfo.
    destruct Hinfo as (video & Hvideo & Hunit).
    exists video, info. rewrite (Hfair to_process) in Hvideo. tauto.
Qed.


Lemma main_lines args node w csv sch all_videos line :
  fair sch →
  (get_video_files sch node (input args)).1 = Some all_videos →
  line ∈ default [] (content (main args node w csv sch).1) →
  line ∈ default [] (content csv)
  ∨ line = Line HEADERS
  ∨ ∃ video info, video ∈ all_videos
      ∧ (process_single_video w video (tag args)).1 = Some info
      ∧ line = Line (cells_of info).
Proof.
  intros Hfair Hfiles. unfold main.
  destruct (get_video_files sch node (input args)) as [[files|] scan_log];
    cbn [fst] in Hfiles; [|discriminate].
  injection Hfiles as ->.
  destruct (mode args).
  - destruct (get_existing_records csv) as [existing_records load_log].
    destruct (length (files_to_process all_videos existing_records) =? 0)%nat;
      [cbn [fst]; tauto|].
    destruct (process_and_save args w csv sch _) as [csv' run_log] eqn:Hrun.
    cbn [fst]. intros Hline.
    change csv' with (csv', run_log).1 in Hline. rewrite <- Hrun in Hline.
    apply (process_and_save_lines _ _ _ _ _ _ Hfair) in Hline.
    destruct Hline as [?|[?|(video & info & Hvideo & Hunit & Hrow)]]; [tauto|tauto|].
    right. right. exists video, info.
    apply files_to_process_spec in Hvideo. tauto.
  - destruct (process_and_save args w csv sch all_videos) as [csv' run_log] eqn:Hrun.
    cbn [fst]. intros Hline.
    change csv' with (csv', run_log).1 in Hline. rewrite <- Hrun in Hline.
    exact (process_and_save_lines _ _ _ _ _ _ Hfair Hline).
Qed.


(** C6 (as amended).  A unit whose stat or probe fails returns no record;
    a unit that returns no record has logged the name of its file, and the
    entries are in the log of the pool; the records the pool gathers are
    those of all the units that returned one, whatever the others did.  So
    the run writes no row for a file whose unit failed: every line of the
    catalog after the run was in it before the run, or is the header, or is
    the row of a discovered file whose unit returned a record. *)
Theorem unit_failures_isolated (args : Args) (node : InputNode) (w : World)
    (csv : CsvFile) (sch : Schedule) (all_videos to_process : list Path.t) :
  fair sch →
  (get_video_files sch node (input args)).1 = Some all_videos →
  (∀ video, stat w video = None ∨ ffprobe w video ≫= extract_metadata = None →
            (process_single_video w video (tag args)).1 = None)
  ∧ (∀ video log,
       video ∈ to_process →
       process_single_video w video (tag args) = (None, log) →
       (log = [ErrorProcessing (Path.name video)]
        ∨ log = [FFprobeFailed (Path.name video); CouldNotExtract (Path.stem video)])
       ∧ ∀ entry, entry ∈ log →
                  entry ∈ (run_pool w (tag args) (completion sch to_process)).2)
  ∧ (run_pool w (tag args) (completion sch to_process)).1
    ≡ₚ records_of w (tag args) to_process
  ∧ (∀ line,
       line ∈ default [] (content (main args node w csv sch).1) →
       line ∈ default [] (content csv)
       ∨ line = Line HEADERS
       ∨ ∃ video info, video ∈ all_videos
           ∧ (process_single_video w video (tag args)).1 = Some info
           ∧ line = Line (cells_of info)).
Proof.
  intros Hfair Hfiles. split; [|split; [|split]].
  - intros video [Hstat|Hprobe].
    + rewrite (stat_failure_unit _ _ _ Hstat). reflexivity.
    + apply probe_failure_unit. exact Hprobe.
  - intros video log Hin Hunit. split.
    + destruct (unit_failure _ _ _ _ Hunit) as [->|[_ ->]]; [left|right]; reflexivity.
    + intros entry Hentry.
      apply (run_pool_log w (tag args) _ video).
      * rewrite (proj2 Hfair to_process). exact Hin.
      * rewrite Hunit. exact Hentry.
  - rewrite run_pool_records. apply records_of_perm, Hfair.
  - intros line. apply main_lines; assumption.
Qed.

End RunFacts.

Lemma in_order_fair : fair Sample.in_order.
Proof. split; [reflexivity|]. intros files. reflexivity. Qed.



Lemma unit_failures_isolated_witness :
  (process_single_video (RT := Reference.runtime) Sample.world_mixed Sample.foo_b "home").1
  = None
  ∧ (run_pool (RT := Reference.runtime) Sample.world_mixed "home"
       (completion Sample.in_order [Sample.foo_a; Sample.foo_b])).1
    ≡ₚ records_of (RT := Reference.runtime) Sample.world_mixed "home"
         [Sample.foo_a; Sample.foo_b].
Proof.
  destruct (unit_failures_isolated (RT := Reference.runtime) (Sample.args_of ModeA)
              (Sample.dir_of [Sample.foo_a; Sample.foo_b]) Sample.world_mixed
              Sample.no_catalog Sample.in_order [Sample.foo_a; Sample.foo_b]
              [Sample.foo_a; Sample.foo_b])
    as (Hfail & _ & Hpool & _).
  - exact in_order_fair.
  - reflexivity.
  - split; [|exact Hpool]. apply Hfail. right. reflexivity.
Defined.

(** C6, the claim as stated fails: the catalog holds the row of foo.mp4
    from an earlier run; in a run in overwrite mode the probe of foo.mp4
    fails, no unit returns a record, the writer does nothing and the row of
    the file is still in the catalog after the run. *)
Lemma failed_probe_row_counterexample :
  process_single_video (RT := Reference.runtime) Sample.world_unprobed Sample.foo "home"
  = (None, [FFprobeFailed "foo.mp4"; CouldNotExtract "foo"])
  ∧ content (main (RT := Reference.runtime) (Sample.args_of ModeW)
               (Sample.dir_of [Sample.foo]) Sample.world_unprobed
               Sample.foo_catalog Sample.in_order).1
    = Some [Line HEADERS; Line Sample.foo_row]
  ∧ Sample.foo_row !! 6%nat = Some (Path.str Sample.foo).
Proof. vm_compute. repeat split. Qed.

(** ** More on the pattern and the parser *)

Section PatternFacts.

Lemma append_cons c r t : String c r ++ t = String c (r ++ t).
Proof. reflexivity. Qed.

Lemma contains_append c a b :
  Str.contains c (a ++ b) = Str.contains c a || Str.contains c b.
Proof.
  induction a as [|x a IH]; [reflexivity|].
  rewrite append_cons. cbn [Str.contains]. rewrite IH, orb_assoc. reflexivity.
Qed.










End PatternFacts.

Section ParserMore.


Lemma no_newline_append a b :
  no_newline (a ++ b) = no_newline a && no_newline b.
Proof. unfold no_newline. rewrite contains_append. apply negb_orb. Qed.






End ParserMore.

Section DotlessFacts.

Lemma dotless_append a b : dotless (a ++ b) = dotless a && dotless b.
Proof. unfold dotless. rewrite contains_append. apply negb_orb. Qed.

Lemma dotless_cons c s :
  dotless (String c s) = negb (Ascii.eqb c Str.dot) && dotless s.
Proof. unfold dotless. cbn [Str.contains]. apply negb_orb. Qed.

Lemma replace_dotless s : dotless (Str.replace Str.dot Str.space s) = true.
Proof.
  induction s as [|c s IH]; [reflexivity|].
  cbn [Str.replace]. rewrite dotless_cons, IH, andb_true_r.
  destruct (Ascii.eqb c Str.dot) eqn:Hc; [reflexivity|]. rewrite Hc. reflexivity.
Qed.

Lemma segment_dotless s seg :
  segment_before_dot s = Some seg → dotless seg = true.
Proof.
  revert seg. induction s as [|c s IH]; intros seg; [discriminate|].
  cbn [segment_before_dot]. destruct (Ascii.eqb c ".") eqn:Hc.
  - intros [= <-]. reflexivity.
  - destruct (segment_before_dot s) as [seg'|]; [|discriminate].
    intros [= <-]. rewrite dotless_cons. unfold Str.dot. rewrite Hc, (IH seg' eq_refl).
    reflexivity.
Qed.

Lemma split_dotless s : Forall (λ t, dotless t = true) (Str.split Str.dot s).
Proof.
  induction s as [|c s IH]; [repeat constructor|].
  cbn [Str.split]. destruct (Ascii.eqb c Str.dot) eqn:Hc.
  - constructor; [reflexivity|exact IH].
  - destruct (Str.split Str.dot s) as [|w ws].
    + repeat constructor. rewrite dotless_cons, Hc. reflexivity.
    + apply Forall_cons in IH. destruct IH as [Hw Hws].
      constructor; [|exact Hws]. rewrite dotless_cons, Hc, Hw. reflexivity.
Qed.

Lemma join_dotless sep l :
  dotless sep = true → Forall (λ t, dotless t = true) l →
  dotless (Str.join sep l) = true.
Proof.
  intros Hsep. induction l as [|w ws IH]; [reflexivity|].
  intros [Hw Hws]%Forall_cons. cbn [Str.join].
  destruct ws as [|w' ws']; [exact Hw|].
  rewrite !dotless_append, Hw, Hsep, (IH Hws). reflexivity.
Qed.

Lemma before_xxx_Forall (P : string → Prop) l : Forall P l → Forall P (before_xxx l).
Proof.
  induction 1 as [|t l Ht Hl IH]; [constructor|].
  cbn [before_xxx]. destruct (String.eqb (Str.upper t) "XXX"); constructor; assumption.
Qed.

Lemma cast_dotless tokens cast :
  Forall (λ t, dotless t = true) tokens →
  cast_of_matches tokens = Some cast → dotless cast = true.
Proof.
  intros Htokens. unfold cast_of_matches.
  assert (Hjoin : ∀ l, Forall (λ t, dotless t = true) l →
                       dotless (Str.join " " l) = true)
    by (intros l; apply join_dotless; reflexivity).
  destruct (length tokens <=? 3)%nat.
  { intros [= <-]. apply Hjoin, Htokens. }
  destruct (negb (Str.mem "And" tokens)).
  { intros [= <-]. apply Hjoin, Forall_take, Htokens. }
  destruct (Str.index "And" tokens) as [i|]; cbn [mbind option_bind]; [|discriminate].
  destruct (i <? 3)%nat.
  - intros [= <-]. rewrite !dotless_append.
    rewrite (Hjoin (take i tokens)) by (apply Forall_take, Htokens). cbn [andb].
    destruct (length (drop (i + 1) tokens) <=? 2)%nat.
    + rewrite Hjoin by (apply Forall_drop, Htokens). reflexivity.
    + rewrite Hjoin by (apply Forall_take, Forall_drop, Htokens). reflexivity.
  - intros [= <-]. apply Hjoin, Forall_take, Htokens.
Qed.

(** X3.  Neither field the parser returns holds a dot: the dots of the
    prefix are turned into spaces, the tokens of the cast are cut at dots,
    and the defaults have none. *)
Theorem parse_fields_dotless (filename collection cast : string) :
  parse_filename_metadata filename = Some (collection, cast) →
  dotless collection = true ∧ dotless cast = true.
Proof.
  unfold parse_filename_metadata. rewrite split_first_segment.
  cbn [mbind option_bind].
  destruct (Pattern.search filename) as [[g1 g2]|].
  - rewrite truncate_xxx_before. cbn [mbind option_bind].
    destruct (cast_of_matches _) as [c|] eqn:Hcast; cbn [mbind option_bind];
      [|discriminate].
    intros [= <- <-]. split; [apply replace_dotless|].
    eapply cast_dotless; [|exact Hcast].
    apply before_xxx_Forall, split_dotless.
  - intros [= <- <-]. split; [|reflexivity].
    destruct (segment_before_dot filename) as [seg|] eqn:Hseg; [|reflexivity].
    exact (segment_dotless _ _ Hseg).
Qed.

Lemma parse_fields_dotless_witness :
  dotless "Sunset Valley" = true ∧ dotless "Alice Bob" = true.
Proof.
  apply (parse_fields_dotless "Sunset.Valley.25.06.01.Alice.Bob.XXX.1080p").
  reflexivity.
Defined.

End DotlessFacts.

(** ** More on the pretty-printers *)

Section PrinterFacts.

(** X4.  For a duration that is not negative, [format_duration] prints
    hours, minutes and seconds, each on at least two digits, with minutes
    and seconds below 60, and together they are the whole seconds of the
    duration; a NaN or an infinity makes it raise. *)
Theorem format_duration_fields (q : Q) :
  (0 <= q)%Q →
  (∃ h m s,
     format_duration (FFinite q)
     = Some (Num.fmt_02 h ++ ":" ++ Num.fmt_02 m ++ ":" ++ Num.fmt_02 s)
     ∧ 0 ≤ h ∧ 0 ≤ m < 60 ∧ 0 ≤ s < 60
     ∧ 3600 * h + 60 * m + s = Qfloor q)
  ∧ format_duration FNan = None
  ∧ ∀ negative, format_duration (FInf negative) = None.
Proof.
  intros Hq. split; [|split; [reflexivity|intros []; reflexivity]].
  destruct q as [n d]. unfold Qle in Hq. cbn in Hq.
  unfold format_duration, Num.float_truthy, Num.int_of_float, Qfloor.
  cbn [Qnum Qden].
  destruct (Z.eqb_spec n 0) as [->|Hn]; cbn [negb].
  - exists 0, 0, 0. repeat split; lia.
  - cbn [mbind option_bind].
    rewrite Z.quot_div_nonneg by lia.
    set (total := n / Z.pos d).
    assert (0 ≤ total) by (apply Z.div_pos; lia).
    exists (total / 60 / 60), ((total / 60) mod 60), (total mod 60).
    split; [reflexivity|].
    pose proof (Z.div_mod total 60 ltac:(lia)).
    pose proof (Z.div_mod (total / 60) 60 ltac:(lia)).
    pose proof (Z.mod_pos_bound total 60 ltac:(lia)).
    pose proof (Z.mod_pos_bound (total / 60) 60 ltac:(lia)).
    assert (0 ≤ total / 60) by (apply Z.div_pos; lia).
    assert (0 ≤ total / 60 / 60) by (apply Z.div_pos; lia).
    repeat split; lia.
Qed.

Lemma format_duration_fields_witness :
  (∃ h m s,
     format_duration (FFinite 7325.9)
     = Some (Num.fmt_02 h ++ ":" ++ Num.fmt_02 m ++ ":" ++ Num.fmt_02 s)
     ∧ 0 ≤ h ∧ 0 ≤ m < 60 ∧ 0 ≤ s < 60
     ∧ 3600 * h + 60 * m + s = Qfloor 7325.9)
  ∧ format_duration FNan = None
  ∧ ∀ negative, format_duration (FInf negative) = None.
Proof. apply (format_duration_fields 7325.9). vm_compute. discriminate. Defined.

Lemma append_assoc (a b c : string) : (a ++ b) ++ c = a ++ b ++ c.
Proof.
  induction a as [|x a IH]; [reflexivity|].
  rewrite !append_cons, IH. reflexivity.
Qed.

Lemma fmt_fixed_int (n : Z) :
  0 ≤ n → Num.fmt_fixed 1 (inject_Z n) = Num.str_of_int n ++ ".0".
Proof.
  intros Hn. unfold Num.fmt_fixed, Num.round_half_even, inject_Z.
  cbn [Qnum Qden Qabs Qmult].
  change (10 ^ Z.of_nat 1) with 10. change (Z.pos (1 * 1)) with 1.
  rewrite Z.abs_eq by lia. rewrite Z.mod_1_r, Z.div_1_r.
  change (2 * 0 <? 1) with true. cbv iota.
  destruct (Z.ltb_spec n 0) as [?|_]; [lia|].
  rewrite Z.div_mul by lia. rewrite Z.mod_mul by lia. reflexivity.
Qed.

Lemma loop_unit units (q : Q) (k : nat) (u : string) :
  units !! k = Some u →
  (k = 0%nat ∨ inject_Z (1024 ^ Z.of_nat k) <= q)%Q →
  (q < inject_Z (1024 ^ Z.of_nat (S k)))%Q →
  ∃ digits, format_size_loop units q = Some (digits ++ " " ++ u).
Proof.
  revert units q. induction k as [|k IH]; intros units q Hu Hlow Hhigh;
    destruct units as [|x units]; try discriminate; cbn [format_size_loop].
  - injection Hu as ->. destruct (Qlt_le_dec q 1024) as [_|Hge]; [eauto|].
    exfalso. apply (Qlt_not_le _ _ Hhigh). exact Hge.
  - destruct Hlow as [?|Hlow]; [discriminate|].
    rewrite pow_1024_succ in Hlow, Hhigh.
    destruct (Qlt_le_dec q 1024) as [Hlt|_].
    + exfalso. apply (Qlt_not_le _ _ Hlt). eapply Qle_trans; [|exact Hlow].
      unfold Qle, inject_Z. cbn.
      assert (0 < 1024 ^ Z.of_nat k) by (apply Z.pow_pos_nonneg; lia). lia.
    + apply (IH units (q / 1024)%Q Hu).
      * right. apply div_1024_le. exact Hlow.
      * apply div_1024_lt. exact Hhigh.
Qed.

(** X5.  [format_size] picks the unit by the magnitude of the size: the
    unit of index [k] in B, KB, MB, GB for a size from 1024^k up to
    1024^(k+1), B for any size below 1024; a size from 0 to 1023 is shown
    as that many bytes with one zero decimal. *)
Theorem format_size_unit (size_bytes : Z) (k : nat) (unit : string) :
  size_units !! k = Some unit →
  (1024 ^ Z.of_nat k ≤ size_bytes < 1024 ^ Z.of_nat (S k) →
   ∃ digits, format_size size_bytes = Some (digits ++ " " ++ unit))
  ∧ (size_bytes < 1024 →
     ∃ digits, format_size size_bytes = Some (digits ++ " B"))
  ∧ (0 ≤ size_bytes < 1024 →
     format_size size_bytes = Some (Num.str_of_int size_bytes ++ ".0 B")).
Proof.
  intros Hunit. split; [|split].
  - intros [Hlow Hhigh]. apply (loop_unit size_units _ k unit Hunit).
    + right. rewrite <- Zle_Qle. exact Hlow.
    + rewrite <- Zlt_Qlt. exact Hhigh.
  - intros Hsmall. apply (loop_unit size_units _ 0 "B" eq_refl); [left; reflexivity|].
    rewrite <- Zlt_Qlt. exact Hsmall.
  - intros [Hlow Hhigh]. unfold format_size, size_units. cbn [format_size_loop].
    destruct (Qlt_le_dec (inject_Z size_bytes) 1024) as [_|Hge].
    + rewrite (fmt_fixed_int _ Hlow), append_assoc. reflexivity.
    + exfalso. apply (Qle_not_lt _ _ Hge).
      change (inject_Z size_bytes < inject_Z 1024)%Q. rewrite <- Zlt_Qlt.
      exact Hhigh.
Qed.

Lemma format_size_unit_witness :
  (∃ digits, format_size (5 * 1024 ^ 2) = Some (digits ++ " " ++ "MB"))
  ∧ format_size 700 = Some (Num.str_of_int 700 ++ ".0 B").
Proof.
  destruct (format_size_unit (5 * 1024 ^ 2) 2 "MB" eq_refl) as (Hunit & _ & _).
  destruct (format_size_unit 700 0 "B" eq_refl) as (_ & _ & Hbytes).
  split; [apply Hunit|apply Hbytes]; vm_compute; split; congruence.
Defined.

(** X6.  The label of [get_res_label] depends on the short side alone, so
    it is the same for a frame and the frame turned by a quarter; from 480
    on it is the greatest of 2160, 1080, 720, 540, 480 that the short side
    reaches; below 480 it is the short side itself. *)
Theorem res_label_threshold (width height : Z) :
  get_res_label width height = get_res_label height width
  ∧ (Z.min width height < 480 →
     get_res_label width height = Num.str_of_int (Z.min width height) ++ "p")
  ∧ (480 ≤ Z.min width height →
     ∃ t, t ∈ res_thresholds
          ∧ get_res_label width height = Num.str_of_int t ++ "p"
          ∧ t ≤ Z.min width height
          ∧ ∀ t', t' ∈ res_thresholds → t' ≤ Z.min width height → t' ≤ t).
Proof.
  split; [unfold get_res_label; rewrite Z.min_comm; reflexivity|].
  unfold get_res_label. set (s := Z.min width height).
  assert (Hmax : ∀ t, t ∈ res_thresholds →
                      (∀ t', t' ∈ res_thresholds → t < t' → s < t') →
                      ∀ t', t' ∈ res_thresholds → t' ≤ s → t' ≤ t).
  { intros t _ Habove t' Ht' Hle.
    destruct (Z.le_gt_cases t' t) as [?|Hgt]; [assumption|].
    specialize (Habove t' Ht' ltac:(lia)). lia. }
  assert (Hin : ∀ t', t' ∈ res_thresholds
                      ↔ t' = 2160 ∨ t' = 1080 ∨ t' = 720 ∨ t' = 540 ∨ t' = 480).
  { intros t'. unfold res_thresholds. rewrite !elem_of_cons, elem_of_nil. tauto. }
  split.
  - intros Hlow.
    repeat match goal with
           | |- context [?a <=? s] => destruct (Z.leb_spec a s); [lia|]
           end.
    reflexivity.
  - intros Hhigh.
    repeat match goal with
           | |- context [?a <=? s] =>
               destruct (Z.leb_spec a s);
               [exists a; split; [apply Hin; tauto|];
                split; [reflexivity|]; split; [assumption|];
                apply Hmax; [apply Hin; tauto|];
                intros t' Ht' ?; apply Hin in Ht'; lia|]
           end.
    lia.
Qed.

End PrinterFacts.

(** ** More on the probe and the unit of work *)

Section ProbeMore.
Context `{RT : Runtime}.

Lemma first_stream_app_found kind l l' s :
  first_stream kind l = Some (Some s) →
  first_stream kind (l ++ l') = Some (Some s).
Proof.
  induction l as [|x l IH]; [discriminate|].
  cbn [first_stream app].
  destruct (Json.subscript x "codec_type") as [t|]; cbn [mbind option_bind];
    [|discriminate].
  destruct (Json.eq_str t kind); [intros H; exact H|exact IH].
Qed.

Lemma first_stream_app_none kind l l' :
  first_stream kind l = Some None →
  first_stream kind (l ++ l') = first_stream kind l'.
Proof.
  induction l as [|x l IH]; [reflexivity|].
  cbn [first_stream app].
  destruct (Json.subscript x "codec_type") as [t|]; cbn [mbind option_bind];
    [|discriminate].
  destruct (Json.eq_str t kind); [discriminate|exact IH].
Qed.

Lemma extract_without_format data :
  Json.subscript data "format" = None → extract_metadata data = None.
Proof.
  intros Hformat. unfold extract_metadata.
  destruct (Json.subscript data "streams" ≫= Json.iter) as [streams|];
    cbn [mbind option_bind]; [|reflexivity].
  destruct (first_stream "video" streams); cbn [mbind option_bind]; [|reflexivity].
  destruct (first_stream "audio" streams); cbn [mbind option_bind]; [|reflexivity].
  rewrite Hformat. reflexivity.
Qed.

(** X7.  The probe fails, and the unit of the file returns no record, when
    the document has no list of streams, when it has no format object, and
    when a stream without a codec type comes before the first video
    stream. *)
Theorem probe_needs_structure (data : json) :
  Json.subscript data "streams" ≫= Json.iter = None
  ∨ Json.subscript data "format" = None
  ∨ (∃ before bad after,
       Json.subscript data "streams" ≫= Json.iter = Some (before ++ bad :: after)%list
       ∧ first_stream "video" before = Some None
       ∧ Json.subscript bad "codec_type" = None) →
  extract_metadata data = None
  ∧ ∀ w path_video tag,
      ffprobe w path_video = Some data →
      (process_single_video w path_video tag).1 = None.
Proof.
  intros Hcase.
  assert (Hnone : extract_metadata data = None).
  { destruct Hcase as [Hstreams|[Hformat|(before & bad & after & Hstreams & Hv & Hbad)]].
    - unfold extract_metadata. rewrite Hstreams. reflexivity.
    - exact (extract_without_format data Hformat).
    - unfold extract_metadata. rewrite Hstreams. cbn [mbind option_bind].
      rewrite (first_stream_app_none _ _ _ Hv). cbn [first_stream].
      rewrite Hbad. reflexivity. }
  split; [exact Hnone|]. intros w path_video tag Hprobe.
  apply probe_failure_unit. rewrite Hprobe. exact Hnone.
Qed.

(** X8.  Streams that come after the first video stream and the first
    audio stream are not looked at: whatever they are, the probe returns
    what it returns without them. *)
Theorem later_streams_ignored (good junk : list json) (members : list (string * json))
    (video audio : json) :
  first_stream "video" good = Some (Some video) →
  first_stream "audio" good = Some (Some audio) →
  extract_metadata (JDict (("streams", JList (good ++ junk)) :: members))
  = extract_metadata (JDict (("streams", JList good) :: members)).
Proof.
  intros Hvideo Haudio. unfold extract_metadata.
  change (Json.subscript (JDict (("streams", JList (good ++ junk)) :: members)) "streams")
    with (Some (JList (good ++ junk))).
  change (Json.subscript (JDict (("streams", JList good) :: members)) "streams")
    with (Some (JList good)).
  change (Json.subscript (JDict (("streams", JList (good ++ junk)) :: members)) "format")
    with (Json.assoc "format" members).
  change (Json.subscript (JDict (("streams", JList good) :: members)) "format")
    with (Json.assoc "format" members).
  cbn [mbind option_bind Json.iter].
  rewrite (first_stream_app_found _ _ junk _ Hvideo),
    (first_stream_app_found _ _ junk _ Haudio), Hvideo, Haudio.
  reflexivity.
Qed.

(** X9.  The fields of a record that a unit returns: the resolution is
    width x height of the probe, the tags are the tag of the run, the
    label of the resolution and PRT or XC, the bit rate is the one of the
    probe in kbps, and the audio bit rate is left out exactly when the
    probe has it zero. *)
Theorem unit_record_fields (w : World) (path_video : Path.t) (tag : string)
    (info : MediaRecord) (log : list log_entry) :
  process_single_video w path_video tag = (Some info, log) →
  ∃ meta,
    ffprobe w path_video ≫= extract_metadata = Some meta
    ∧ info_resolution info
      = Num.str_of_int (width meta) ++ "x" ++ Num.str_of_int (height meta)
    ∧ (∃ tag_to, (tag_to = "PRT" ∨ tag_to = "XC")
         ∧ info_tags info
           = tag ++ ", " ++ get_res_label (width meta) (height meta) ++ ", " ++ tag_to)
    ∧ info_bitrate info = Num.str_of_int (bitrate meta) ++ "kbps"
    ∧ (info_audio_bitrate info = None ↔ audio_bitrate meta = 0)
    ∧ info_audio_channels info = audio_channels meta
    ∧ (info_audio_sampling_rate info = None ↔ audio_sample_rate meta = 0)
    ∧ info_comment info = comment meta.
Proof.
  unfold process_single_video, unit_of_work, get_metadata_ffprobe.
  destruct (stat w path_video) as [st|]; cbn [mbind option_bind]; [|discriminate].
  destruct (format_timestamp _) as [ts|]; cbn [mbind option_bind]; [|discriminate].
  destruct (parse_filename_metadata _) as [[collection cast]|];
    cbn [mbind option_bind]; [|discriminate].
  destruct (ffprobe w path_video ≫= extract_metadata) as [meta|]; [|discriminate].
  destruct (format_duration _) as [d|]; cbn [mbind option_bind]; [|discriminate].
  destruct (format_fps _) as [f|]; cbn [mbind option_bind]; [|discriminate].
  destruct (Z.eqb_spec (audio_sample_rate meta) 0) as [Hrate|Hrate]; cbn [negb].
  - cbn [mbind option_bind]. intros [= <- <-]. exists meta. cbn.
    repeat split; try reflexivity; try tauto.
    + destruct (Str.is_substring "PRT" _); eauto.
    + destruct (Z.eqb_spec (audio_bitrate meta) 0); [tauto|discriminate].
    + destruct (Z.eqb_spec (audio_bitrate meta) 0); [tauto|congruence].
  - destruct (int_true_div (audio_sample_rate meta) 1000) as [khz|];
      cbn [mbind option_bind fmap option_fmap option_map]; [|discriminate].
    intros [= <- <-]. exists meta. cbn.
    repeat split; try reflexivity; try discriminate; try tauto.
    + destruct (Str.is_substring "PRT" _); eauto.
    + destruct (Z.eqb_spec (audio_bitrate meta) 0); [tauto|discriminate].
    + destruct (Z.eqb_spec (audio_bitrate meta) 0); [tauto|congruence].
Qed.

End ProbeMore.

Lemma probe_needs_structure_witness :
  extract_metadata (RT := Reference.runtime) (JDict []) = None
  ∧ ∀ w path_video tag,
      ffprobe w path_video = Some (JDict []) →
      (process_single_video (RT := Reference.runtime) w path_video tag).1 = None.
Proof.
  apply (probe_needs_structure (RT := Reference.runtime) (JDict [])).
  left. reflexivity.
Defined.

Lemma later_streams_ignored_witness :
  extract_metadata (RT := Reference.runtime)
    (JDict [("streams",
             JList ([JDict [("codec_type", JStr "video"); ("width", JInt 1920);
                            ("height", JInt 1080); ("r_frame_rate", JStr "30/1")];
                     JDict [("codec_type", JStr "audio"); ("channels", JInt 2)]]
                    ++ [JNull; JStr "not a stream"]));
            ("format", JDict [])])
  = extract_metadata (RT := Reference.runtime)
      (JDict [("streams",
               JList [JDict [("codec_type", JStr "video"); ("width", JInt 1920);
                             ("height", JInt 1080); ("r_frame_rate", JStr "30/1")];
                      JDict [("codec_type", JStr "audio"); ("channels", JInt 2)]]);
              ("format", JDict [])]).
Proof.
  eapply (later_streams_ignored (RT := Reference.runtime)); reflexivity.
Defined.


Lemma unit_record_fields_witness :
  ∃ meta,
    ffprobe Sample.world Sample.foo ≫= extract_metadata (RT := Reference.runtime)
    = Some meta
    ∧ info_resolution Sample.foo_info
      = Num.str_of_int (width meta) ++ "x" ++ Num.str_of_int (height meta)
    ∧ (∃ tag_to, (tag_to = "PRT" ∨ tag_to = "XC")
         ∧ info_tags Sample.foo_info
           = "home" ++ ", " ++ get_res_label (width meta) (height meta) ++ ", " ++ tag_to)
    ∧ info_bitrate Sample.foo_info = Num.str_of_int (bitrate meta) ++ "kbps"
    ∧ (info_audio_bitrate Sample.foo_info = None ↔ audio_bitrate meta = 0)
    ∧ info_audio_channels Sample.foo_info = audio_channels meta
    ∧ (info_audio_sampling_rate Sample.foo_info = None ↔ audio_sample_rate meta = 0)
    ∧ info_comment Sample.foo_info = comment meta.
Proof.
  apply (unit_record_fields (RT := Reference.runtime) Sample.world Sample.foo "home"
           Sample.foo_info []).
  vm_compute. reflexivity.
Defined.

(** ** More on the catalog reader and writer *)

Section LoaderFacts.
Context `{RT : Runtime}.

Lemma read_rows_line fieldnames cells rest m :
  read_rows fieldnames (Line cells :: rest) m
  = read_rows fieldnames rest
      match named_row fieldnames (Line cells) with
      | Some (n, row) => <[n := row]> m
      | None => m
      end.
Proof.
  destruct cells as [|c cs]; [reflexivity|].
  cbn [read_rows named_row].
  replace (Csv.row_truthy fieldnames (c :: cs)) with true
    by (destruct fieldnames; reflexivity).
  cbn [andb]. unfold Csv.str_truthy.
  destruct (Csv.row_get "name" _) as [n|]; [|reflexivity].
  destruct (String.eqb n EmptyString); reflexivity.
Qed.

Lemma read_rows_app fieldnames l1 l2 m :
  Bad ∉ l1 →
  read_rows fieldnames (l1 ++ l2) m
  = read_rows fieldnames l2 (read_rows fieldnames l1 m).1.
Proof.
  revert m. induction l1 as [|[cells|] l1 IH]; intros m Hbad.
  - reflexivity.
  - assert (Bad ∉ l1) by (intros H; apply Hbad; right; exact H).
    change ((Line cells :: l1) ++ l2)%list with (Line cells :: (l1 ++ l2))%list.
    rewrite !read_rows_line. apply IH. assumption.
  - exfalso. apply Hbad. left.
Qed.

Lemma read_rows_untouched fieldnames lines m k :
  (∀ line row, line ∈ lines → named_row fieldnames line ≠ Some (k, row)) →
  (read_rows fieldnames lines m).1 !! k = m !! k.
Proof.
  revert m. induction lines as [|[cells|] rest IH]; intros m Hnone.
  - reflexivity.
  - rewrite read_rows_line.
    rewrite IH by (intros line row Hin; apply Hnone; right; exact Hin).
    destruct (named_row fieldnames (Line cells)) as [[n row]|] eqn:Hnamed;
      [|reflexivity].
    apply lookup_insert_ne. intros ->. apply (Hnone (Line cells) row); [left|exact Hnamed].
  - reflexivity.
Qed.

Lemma read_rows_keys fieldnames lines m k :
  Bad ∉ lines →
  is_Some ((read_rows fieldnames lines m).1 !! k)
  ↔ is_Some (m !! k)
    ∨ ∃ line row, line ∈ lines ∧ named_row fieldnames line = Some (k, row).
Proof.
  revert m. induction lines as [|[cells|] rest IH]; intros m Hbad.
  - cbn [read_rows fst]. split; [tauto|].
    intros [?|(line & row & Hin & _)]; [assumption|]. apply elem_of_nil in Hin. tauto.
  - assert (Hrest : Bad ∉ rest) by (intros H; apply Hbad; right; exact H).
    rewrite read_rows_line, (IH _ Hrest).
    destruct (named_row fieldnames (Line cells)) as [[n row]|] eqn:Hnamed.
    + rewrite lookup_insert. split.
      * intros [Hm|(line & row' & Hin & Hline)].
        -- case_decide as Hn; [subst n|tauto].
           right. exists (Line cells), row. split; [left|exact Hnamed].
        -- right. exists line, row'. split; [right; exact Hin|exact Hline].
      * intros [Hm|(line & row' & Hin & Hline)].
        -- left. case_decide; [eauto|exact Hm].
        -- apply elem_of_cons in Hin. destruct Hin as [->|Hin].
           ++ left. rewrite Hnamed in Hline. injection Hline as -> ->.
              case_decide; [eauto|congruence].
           ++ right. eauto.
    + split.
      * intros [Hm|(line & row' & Hin & Hline)]; [tauto|].
        right. exists line, row'. split; [right; exact Hin|exact Hline].
      * intros [Hm|(line & row' & Hin & Hline)]; [tauto|].
        apply elem_of_cons in Hin. destruct Hin as [->|Hin]; [congruence|].
        right. eauto.
  - exfalso. apply Hbad. left.
Qed.

Lemma row_get_absent key fieldnames cells acc :
  key ∉ fieldnames →
  fold_left (λ acc kv, if String.eqb kv.1 key then kv.2 else acc)
    (Csv.dict_zip fieldnames cells) acc = acc.
Proof.
  revert cells acc. induction fieldnames as [|f fs IH]; intros cells acc Hkey;
    [destruct cells; reflexivity|].
  assert (Hf : String.eqb f key = false)
    by (apply String.eqb_neq; intros ->; apply Hkey; left).
  assert (Hfs : key ∉ fs) by (intros H; apply Hkey; right; exact H).
  destruct cells as [|c cs]; cbn [Csv.dict_zip fold_left fst snd];
    rewrite Hf; apply IH; exact Hfs.
Qed.

Lemma named_row_no_column fieldnames line :
  "name" ∉ fieldnames → named_row fieldnames line = None.
Proof.
  intros Hkey. destruct line as [[|c cs]|]; try reflexivity.
  cbn [named_row]. unfold Csv.row_get. rewrite (row_get_absent _ _ _ _ Hkey).
  reflexivity.
Qed.

Lemma load_readable fieldnames lines wr :
  Bad ∉ lines →
  get_existing_records {| content := Some (Line fieldnames :: lines); writable := wr |}
  = ((read_rows fieldnames lines ∅).1,
     [LoadedRecords (size (read_rows fieldnames lines ∅).1)]).
Proof.
  intros Hbad. unfold get_existing_records. cbn [content].
  pose proof (read_rows_to_end fieldnames lines ∅ Hbad) as Hend.
  destruct (read_rows fieldnames lines ∅) as [m finished]. cbn [snd] in Hend.
  subst finished. reflexivity.
Qed.

(** X10.  Loading a catalog that reads to its end: a name is a key of the
    mapping exactly when some line has it as a non-empty name cell; of
    several lines of one name the last one is kept; a header without the
    column name gives the empty mapping; the count logged is the size of
    the mapping. *)
Theorem loader_keys (fieldnames : list string) (lines : list fline) (wr : bool) :
  Bad ∉ lines →
  let loaded :=
    get_existing_records
      {| content := Some (Line fieldnames :: lines); writable := wr |} in
  (∀ k, is_Some (loaded.1 !! k)
        ↔ ∃ line row, line ∈ lines ∧ named_row fieldnames line = Some (k, row))
  ∧ (∀ before line after k row,
       lines = (before ++ line :: after)%list →
       named_row fieldnames line = Some (k, row) →
       (∀ line' row', line' ∈ after → named_row fieldnames line' ≠ Some (k, row')) →
       loaded.1 !! k = Some row)
  ∧ ("name" ∉ fieldnames → loaded.1 = ∅)
  ∧ loaded.2 = [LoadedRecords (size loaded.1)].
Proof.
  intros Hbad loaded. subst loaded. rewrite (load_readable _ _ _ Hbad). cbn [fst snd].
  split; [|split; [|split]].
  - intros k. rewrite (read_rows_keys _ _ _ _ Hbad), lookup_empty.
    split; [intros [[? [=]]|?]; assumption|tauto].
  - intros before line after k row -> Hline Hafter.
    assert (Hb : Bad ∉ before) by (intros H; apply Hbad, elem_of_app; tauto).
    rewrite (read_rows_app _ _ _ _ Hb).
    destruct line as [cells|]; [|discriminate].
    rewrite read_rows_line, Hline, (read_rows_untouched _ _ _ _ Hafter).
    apply lookup_insert_eq.
  - intros Hkey. apply map_eq. intros k. rewrite lookup_empty.
    apply eq_None_not_Some. rewrite (read_rows_keys _ _ _ _ Hbad), lookup_empty.
    intros [[? [=]]|(line & row & _ & Hline)].
    rewrite (named_row_no_column _ _ Hkey) in Hline. discriminate.
  - reflexivity.
Qed.




End LoaderFacts.

Lemma loader_keys_witness :
  let loaded := get_existing_records Sample.foo_catalog in
  (∀ k, is_Some (loaded.1 !! k)
        ↔ ∃ line row, line ∈ [Line Sample.foo_row]
                      ∧ named_row HEADERS line = Some (k, row))
  ∧ (∀ before line after k row,
       [Line Sample.foo_row] = (before ++ line :: after)%list →
       named_row HEADERS line = Some (k, row) →
       (∀ line' row', line' ∈ after → named_row HEADERS line' ≠ Some (k, row')) →
       loaded.1 !! k = Some row)
  ∧ ("name" ∉ HEADERS → loaded.1 = ∅)
  ∧ loaded.2 = [LoadedRecords (size loaded.1)].
Proof.
  apply (loader_keys HEADERS [Line Sample.foo_row] true).
  intros Hin. apply list_elem_of_singleton in Hin. discriminate.
Defined.


(** ** More on discovery and the run *)

Section RunMore.
Context `{RT : Runtime}.

Lemma concat_map_perm {A B} (f : A → list B) (l1 l2 : list A) :
  l1 ≡ₚ l2 → concat (map f l1) ≡ₚ concat (map f l2).
Proof.
  induction 1 as [|x l1 l2 _ IH|x y l|l1 l2 l3 _ IH1 _ IH2]; cbn [map concat].
  - reflexivity.
  - rewrite IH. reflexivity.
  - rewrite !app_assoc. rewrite (Permutation_app_comm (f y) (f x)). reflexivity.
  - rewrite IH1. exact IH2.
Qed.


(** X12.  Discovery: in a directory, the files found are those the
    recursive glob returns for one of the five patterns, each as often as
    the globs return it, in whatever order the set of patterns is gone
    through; a path that is a file is taken as it is, whatever its
    extension; a path that is neither makes the program exit. *)
Theorem discovery_union (sch : Schedule) (rglob : string → list Path.t)
    (directory : Path.t) :
  fair sch →
  (∃ files,
     (get_video_files sch (IsDir rglob) directory).1 = Some files
     ∧ files ≡ₚ concat (map rglob extensions)
     ∧ ∀ video, video ∈ files
                ↔ ∃ pattern, pattern ∈ extensions ∧ video ∈ rglob pattern)
  ∧ (get_video_files sch IsFile directory).1 = Some [directory]
  ∧ (get_video_files sch Missing directory).1 = None.
Proof.
  intros [Hext _]. split; [|split; reflexivity].
  exists (concat (map rglob (ext_order sch))). split; [reflexivity|].
  assert (Hperm : concat (map rglob (ext_order sch)) ≡ₚ concat (map rglob extensions))
    by (apply concat_map_perm, Hext).
  split; [exact Hperm|]. intros video. rewrite Hperm.
  rewrite list_elem_of_In, in_concat. split.
  - intros (l & Hl & Hin). apply in_map_iff in Hl. destruct Hl as (pattern & <- & Hp).
    exists pattern. rewrite !list_elem_of_In. tauto.
  - intros (pattern & Hp & Hin). exists (rglob pattern).
    rewrite <- !list_elem_of_In. split; [|exact Hin].
    apply list_elem_of_In, in_map, list_elem_of_In, Hp.
Qed.

Lemma save_unwritable data_list csv open_mode :
  writable csv = false → (save_to_csv data_list csv open_mode).1 = csv.
Proof.
  intros Hopen. unfold save_to_csv. rewrite Hopen. destruct data_list; reflexivity.
Qed.

Lemma save_nothing csv open_mode : (save_to_csv [] csv open_mode).1 = csv.
Proof. reflexivity. Qed.

(** The catalog after [main], once discovery has returned. *)
Lemma main_csv args node w csv sch all_videos :
  (get_video_files sch node (input args)).1 = Some all_videos →
  (main args node w csv sch).1
  = match mode args with
    | ModeA =>
        if (length (files_to_process all_videos (get_existing_records csv).1) =? 0)%nat
        then csv
        else (process_and_save args w csv sch
                (files_to_process all_videos (get_existing_records csv).1)).1
    | ModeW => (process_and_save args w csv sch all_videos).1
    end.
Proof.
  intros Hfiles. unfold main.
  destruct (get_video_files sch node (input args)) as [[files|] scan_log];
    cbn [fst] in Hfiles; [|discriminate].
  injection Hfiles as ->. destruct (mode args).
  - destruct (get_existing_records csv) as [existing_records load_log]. cbn [fst].
    destruct (length (files_to_process all_videos existing_records) =? 0)%nat;
      [reflexivity|].
    destruct (process_and_save args w csv sch _). reflexivity.
  - destruct (process_and_save args w csv sch all_videos). reflexivity.
Qed.

Lemma main_exit args node w csv sch :
  (get_video_files sch node (input args)).1 = None →
  (main args node w csv sch).1 = csv.
Proof.
  intros Hfiles. unfold main.
  destruct (get_video_files sch node (input args)) as [[files|] scan_log];
    cbn [fst] in Hfiles; [discriminate|reflexivity].
Qed.

Lemma get_video_files_cases sch node directory :
  (get_video_files sch node directory).1 = None
  ∨ ∃ all_videos, (get_video_files sch node directory).1 = Some all_videos.
Proof. destruct node; cbn; eauto. Qed.

Lemma process_and_save_unwritable args w csv sch to_process :
  writable csv = false → (process_and_save args w csv sch to_process).1 = csv.
Proof.
  intros Hopen. destruct (Z.leb_spec (num args) 0) as [Hnum|Hnum].
  - apply process_and_save_aborts. exact Hnum.
  - rewrite (process_and_save_csv _ _ _ _ _ Hnum). apply save_unwritable. exact Hopen.
Qed.

(** X13.  The run leaves the catalog file as it is when the input path
    does not exist, when the pool is asked for no worker, and when the
    catalog path cannot be opened for writing. *)
Theorem catalog_untouched (args : Args) (node : InputNode) (w : World)
    (csv : CsvFile) (sch : Schedule) :
  node = Missing ∨ num args ≤ 0 ∨ writable csv = false →
  (main args node w csv sch).1 = csv.
Proof.
  intros Hcase.
  destruct (get_video_files_cases sch node (input args)) as [Hexit|[all_videos Hfiles]];
    [exact (main_exit _ _ _ _ _ Hexit)|].
  rewrite (main_csv _ _ _ _ _ _ Hfiles).
  assert (Hsave : ∀ to_process, (process_and_save args w csv sch to_process).1 = csv).
  { intros to_process. destruct Hcase as [->|[Hnum|Hopen]].
    - discriminate.
    - apply process_and_save_aborts. exact Hnum.
    - apply process_and_save_unwritable. exact Hopen. }
  destruct (mode args); [|apply Hsave].
  destruct (_ =? _)%nat; [reflexivity|apply Hsave].
Qed.

Lemma process_and_save_nothing args w csv sch :
  fair sch → (process_and_save args w csv sch []).1 = csv.
Proof.
  intros [_ Hfair]. destruct (Z.leb_spec (num args) 0) as [Hnum|Hnum].
  - apply process_and_save_aborts. exact Hnum.
  - rewrite (process_and_save_csv _ _ _ _ _ Hnum).
    rewrite (proj1 (Permutation_nil_r _) (Hfair [])). reflexivity.
Qed.

(** X14.  Nothing to do: when no file is discovered, in either mode, and
    when the work set of a run in append mode is empty, the run leaves the
    catalog file as it is; in append mode the last entry of its log then
    says that all files are recorded. *)
Theorem nothing_to_do (args : Args) (node : InputNode) (w : World)
    (csv : CsvFile) (sch : Schedule) (all_videos : list Path.t) :
  fair sch →
  (get_video_files sch node (input args)).1 = Some all_videos →
  all_videos = []
  ∨ (mode args = ModeA
     ∧ files_to_process all_videos (get_existing_records csv).1 = []) →
  (main args node w csv sch).1 = csv
  ∧ (mode args = ModeA → last (main args node w csv sch).2 = Some AllRecorded).
Proof.
  intros Hfair Hfiles Hcase. split.
  - rewrite (main_csv _ _ _ _ _ _ Hfiles).
    destruct Hcase as [->|[Hmode Hwork]].
    + destruct (mode args); [reflexivity|].
      apply process_and_save_nothing. exact Hfair.
    + rewrite Hmode, Hwork. reflexivity.
  - intros Hmode.
    assert (Hwork : files_to_process all_videos (get_existing_records csv).1 = [])
      by (destruct Hcase as [->|[_ Hwork]]; [reflexivity|exact Hwork]).
    unfold main.
    destruct (get_video_files sch node (input args)) as [[files|] scan_log];
      cbn [fst] in Hfiles; [|discriminate].
    injection Hfiles as ->. rewrite Hmode.
    destruct (get_existing_records csv) as [existing_records load_log].
    cbn [fst] in Hwork. rewrite Hwork. cbn [length Nat.eqb snd].
    rewrite app_comm_cons, app_assoc. apply last_snoc.
Qed.

Lemma save_append data_list csv old :
  content csv = Some old →
  ∃ new,
    content (save_to_csv data_list csv ModeA).1 = Some (old ++ new)%list
    ∧ (old ≠ [] → ∃ info_list, new = map (λ info, Line (cells_of info)) info_list).
Proof.
  intros Hold. unfold save_to_csv.
  destruct data_list as [|info rest] eqn:Hdata.
  { exists []. rewrite app_nil_r. split; [exact Hold|]. exists []. reflexivity. }
  rewrite <- Hdata. clear Hdata.
  destruct (writable csv).
  - cbn [fst content]. rewrite Hold. cbn [default from_option id].
    eexists. split; [reflexivity|]. intros Hne.
    exists data_list. unfold writes, write_header. rewrite Hold.
    destruct old; [congruence|]. cbn [app]. rewrite map_map. reflexivity.
  - exists []. rewrite app_nil_r. split; [exact Hold|]. exists []. reflexivity.
Qed.

(** X15.  A run in append mode never loses a line of the catalog: the
    file after the run is the file before it followed by what the run
    wrote; and into a catalog that is not empty it writes rows of records
    only, no header. *)
Theorem append_keeps_lines (args : Args) (node : InputNode) (w : World)
    (csv : CsvFile) (sch : Schedule) (old : list fline) :
  mode args = ModeA → content csv = Some old →
  ∃ new,
    content (main args node w csv sch).1 = Some (old ++ new)%list
    ∧ (old ≠ [] → ∃ info_list, new = map (λ info, Line (cells_of info)) info_list).
Proof.
  intros Hmode Hold.
  assert (Hsame : ∃ new, content csv = Some (old ++ new)%list
                         ∧ (old ≠ [] →
                            ∃ info_list, new = map (λ info, Line (cells_of info)) info_list)).
  { exists []. rewrite app_nil_r. split; [exact Hold|]. exists []. reflexivity. }
  destruct (get_video_files_cases sch node (input args)) as [Hexit|[all_videos Hfiles]].
  { rewrite (main_exit _ _ _ _ _ Hexit). exact Hsame. }
  rewrite (main_csv _ _ _ _ _ _ Hfiles), Hmode.
  destruct (_ =? _)%nat; [exact Hsame|].
  destruct (Z.leb_spec (num args) 0) as [Hnum|Hnum].
  { rewrite (process_and_save_aborts _ _ _ _ _ Hnum). exact Hsame. }
  rewrite (process_and_save_csv _ _ _ _ _ Hnum), Hmode, Hold.
  apply save_append. exact Hold.
Qed.





End RunMore.


Lemma discovery_union_witness :
  (∃ files,
     (get_video_files Sample.in_order
        (Sample.dir_of [Sample.foo_a; Sample.foo_b]) (Path.make "/" "videos")).1
     = Some files
     ∧ files ≡ₚ concat
          (map (λ pattern, if String.eqb pattern "*.mp4"
                           then [Sample.foo_a; Sample.foo_b] else [])
             extensions)
     ∧ ∀ video, video ∈ files
                ↔ ∃ pattern, pattern ∈ extensions
                    ∧ video ∈ (if String.eqb pattern "*.mp4"
                               then [Sample.foo_a; Sample.foo_b] else []))
  ∧ (get_video_files Sample.in_order IsFile (Path.make "/" "videos")).1
    = Some [Path.make "/" "videos"]
  ∧ (get_video_files Sample.in_order Missing (Path.make "/" "videos")).1 = None.
Proof.
  apply (discovery_union Sample.in_order
           (λ pattern, if String.eqb pattern "*.mp4"
                       then [Sample.foo_a; Sample.foo_b] else [])
           (Path.make "/" "videos")).
  exact in_order_fair.
Defined.

Lemma catalog_untouched_witness :
  (main (RT := Reference.runtime) (Sample.args_of ModeW) Missing Sample.world
     Sample.foo_catalog Sample.in_order).1
  = Sample.foo_catalog.
Proof.
  apply (catalog_untouched (RT := Reference.runtime)). left. reflexivity.
Defined.

Lemma nothing_to_do_witness :
  let args := {| input := Path.make "/videos/" "foo"; tag := "home";
                 mode := ModeA; num := 12 |} in
  (main (RT := Reference.runtime) args IsFile Sample.world Sample.foo_catalog
     Sample.in_order).1 = Sample.foo_catalog
  ∧ (mode args = ModeA →
     last (main (RT := Reference.runtime) args IsFile Sample.world Sample.foo_catalog
             Sample.in_order).2 = Some AllRecorded).
Proof.
  apply (nothing_to_do (RT := Reference.runtime) _ _ _ _ _ [Path.make "/videos/" "foo"]);
    [exact in_order_fair|reflexivity|right; split; vm_compute; reflexivity].
Defined.

Lemma append_keeps_lines_witness :
  ∃ new,
    content (main (RT := Reference.runtime) (Sample.args_of ModeA)
               (Sample.dir_of [Sample.foo_a]) Sample.world Sample.foo_catalog
               Sample.in_order).1
    = Some ([Line HEADERS; Line Sample.foo_row] ++ new)%list
    ∧ ([Line HEADERS; Line Sample.foo_row] ≠ [] →
       ∃ info_list,
         new = map (λ info, Line (cells_of (RT := Reference.runtime) info)) info_list).
Proof.
  apply (append_keeps_lines (RT := Reference.runtime)); reflexivity.
Defined.


Section FirstRun.
Context `{RT : Runtime}.

Lemma files_to_process_empty all_videos :
  files_to_process all_videos (∅ : gmap string Row) = all_videos.
Proof.
  unfold files_to_process. induction all_videos as [|video rest IH]; [reflexivity|].
  cbn [List.filter]. unfold not_recorded at 1. rewrite lookup_empty.
  rewrite bool_decide_eq_false_2 by (intros [? [=]]). cbn [negb]. rewrite IH.
  reflexivity.
Qed.

(** X17.  Without a catalog file a run in append mode does what a run in
    overwrite mode does: nothing is loaded, every discovered file is
    dispatched and the file is written in mode w. *)
Theorem first_append_is_overwrite (args : Args) (node : InputNode) (w : World)
    (csv : CsvFile) (sch : Schedule) :
  fair sch → mode args = ModeA → content csv = None →
  (main args node w csv sch).1
  = (main {| input := input args; tag := tag args; mode := ModeW; num := num args |}
       node w csv sch).1.
Proof.
  intros Hfair Hmode Hnone.
  set (args' := {| input := input args; tag := tag args; mode := ModeW;
                   num := num args |}).
  destruct (get_video_files_cases sch node (input args)) as [Hexit|[all_videos Hfiles]].
  { rewrite (main_exit args _ _ _ _ Hexit), (main_exit args' _ _ _ _ Hexit).
    reflexivity. }
  rewrite (main_csv args _ _ _ _ _ Hfiles), (main_csv args' _ _ _ _ _ Hfiles), Hmode.
  cbn [mode args'].
  replace (get_existing_records csv).1 with (∅ : gmap string Row)
    by (unfold get_existing_records; rewrite Hnone; reflexivity).
  rewrite files_to_process_empty.
  assert (Hsame : (process_and_save args w csv sch all_videos).1
                  = (process_and_save args' w csv sch all_videos).1).
  { unfold process_and_save. rewrite Hmode, Hnone. reflexivity. }
  destruct all_videos as [|video rest]; [|exact Hsame].
  cbn [length Nat.eqb]. symmetry. apply process_and_save_nothing. exact Hfair.
Qed.

End FirstRun.

Lemma first_append_is_overwrite_witness :
  (main (RT := Reference.runtime) (Sample.args_of ModeA) (Sample.dir_of [Sample.foo])
     Sample.world Sample.no_catalog Sample.in_order).1
  = (main (RT := Reference.runtime)
       {| input := input (Sample.args_of ModeA); tag := tag (Sample.args_of ModeA);
          mode := ModeW; num := num (Sample.args_of ModeA) |}
       (Sample.dir_of [Sample.foo]) Sample.world Sample.no_catalog Sample.in_order).1.
Proof.
  apply (first_append_is_overwrite (RT := Reference.runtime));
    [exact in_order_fair|reflexivity|reflexivity].
Defined.
